(** * gitapis10: batch upsert of files through the GitHub Git-data API

    A shallow embedding of [main.go]: [upsertMultipleFilesSafe] and
    [createRepo].  The remote host (the go-github client) and the local
    file system are the environment of the program: a record of
    state-transforming operations over an abstract world [W].  Every Go
    function becomes a computation that threads the world, records the
    calls it makes and the lines it prints in a trace, and ends with the
    value it returns, or with a panic.

    [main] (token, local files, the summary it prints) and
    [createInitialMainBranch], whose only call is commented out, follow
    the vocabulary of the properties. *)

From stdpp Require Import base strings gmap list pretty.
From Stdlib Require Import ZArith.

Local Open Scope Z_scope.

(** ** Data of the go-github library, as far as the program touches it *)

(** A Go [error] value.  [ErrorResponse] is [*github.ErrorResponse] with
    its [Response.StatusCode]; [wrapError] is what
    [fmt.Errorf("prefix%wsuffix", err)] builds. *)
Inductive error : Type :=
| ErrorResponse (Response_StatusCode : Z)
| errorString (s : string)
| wrapError (prefix : string) (err : error) (suffix : string).

(** [*github.Response]: the HTTP response next to an API result. *)
Record Response : Type := mkResponse {
  StatusCode : Z;
  Status : string;
  Request_URL_Path : string
}.

Record GitObject : Type := mkGitObject {
  GitObject_Type : option string;
  GitObject_SHA : option string;
  GitObject_URL : option string
}.

Record Reference : Type := mkReference {
  Reference_Ref : option string;
  Reference_URL : option string;
  Reference_Object : option GitObject
}.

Record Blob : Type := mkBlob {
  Blob_Content : option string;
  Blob_Encoding : option string;
  Blob_SHA : option string
}.

Record TreeEntry : Type := mkTreeEntry {
  TreeEntry_SHA : option string;
  TreeEntry_Path : option string;
  TreeEntry_Mode : option string;
  TreeEntry_Type : option string
}.

Record Tree : Type := mkTree {
  Tree_SHA : option string;
  Tree_Entries : list TreeEntry
}.

(** [github.Commit]; [Parents] is a slice of commits. *)
#[local] Set Warnings "-register-all".
Inductive Commit : Type := mkCommit {
  Commit_SHA : option string;
  Commit_Message : option string;
  Commit_Tree : option Tree;
  Commit_Parents : list Commit;
  Commit_HTMLURL : option string
}.

Record RepositoryCommit : Type := mkRepositoryCommit {
  RepositoryCommit_SHA : option string;
  RepositoryCommit_Commit : option Commit
}.

Record RepositoryContent : Type := mkRepositoryContent {
  RepositoryContent_Encoding : option string;
  RepositoryContent_Content : option string
}.

Record Repository : Type := mkRepository {
  Repository_Name : option string;
  Repository_Description : option string;
  Repository_Private : option bool;
  Repository_AutoInit : option bool;
  Repository_HTMLURL : option string
}.

(** The nil-safe getters of go-github: the zero value on a nil receiver
    or a nil field. *)
Definition GetString (s : option string) : string := default EmptyString s.

Definition GitObject_GetSHA (o : option GitObject) : string :=
  match o with
  | Some o => GetString (GitObject_SHA o)
  | None => EmptyString
  end.

Definition Tree_GetSHA (t : option Tree) : string :=
  match t with
  | Some t => GetString (Tree_SHA t)
  | None => EmptyString
  end.

Definition Commit_GetHTMLURL (c : Commit) : string := GetString (Commit_HTMLURL c).

Definition Repository_GetHTMLURL (r : Repository) : string :=
  GetString (Repository_HTMLURL r).

(** ** The environment *)

(** What the program does to the outside, in the order it does it. *)
Inductive Event : Type :=
| GetRef (owner repo ref : string)
| GetCommit (owner repo sha : string)
| GetContents (owner repo path ref : string)
| CreateBlob (owner repo : string) (blob : Blob)
| CreateTree (owner repo baseTree : string) (entries : list TreeEntry)
| CreateCommit (owner repo : string) (commit : Commit)
| CreateRef (owner repo : string) (ref : Reference)
| UpdateRef (owner repo : string) (ref : Reference) (force : bool)
| ReposGet (owner repo : string)
| ReposCreate (org : string) (r : Repository)
| ReadFile (name : string)
| LogPrintln (line : string)
| FmtPrintln (line : string).

(** The operations of [*github.Client] the program calls, over a world
    [W].  Where the program reads the value only after [err == nil]
    (GetRef, CreateBlob, CreateTree, CreateCommit, Repositories.Create)
    the result is a sum; where it inspects value, response and error
    separately (GetCommit, GetContents, Repositories.Get) each may be nil
    on its own.  [RepositoryContent_GetContent] is the library's decoder
    of a file's content, [os_ReadFile] the local file system (its error
    is dropped by the program). *)
Record Client (W : Type) : Type := mkClient {
  Git_GetRef : string → string → string → W → (Reference + error) * W;
  Git_CreateBlob : string → string → Blob → W → (Blob + error) * W;
  Git_CreateTree :
    string → string → string → list TreeEntry → W → (Tree + error) * W;
  Git_CreateCommit : string → string → Commit → W → (Commit + error) * W;
  Git_CreateRef : string → string → Reference → W → option error * W;
  Git_UpdateRef : string → string → Reference → bool → W → option error * W;
  Repositories_GetCommit :
    string → string → string → W →
    (option RepositoryCommit * option Response * option error) * W;
  Repositories_GetContents :
    string → string → string → string → W →
    (option RepositoryContent * option Response * option error) * W;
  Repositories_Get :
    string → string → W → (option Response * option error) * W;
  Repositories_Create : string → Repository → W → (Repository + error) * W;
  RepositoryContent_GetContent : RepositoryContent → string * option error;
  os_ReadFile : string → W → string * W
}.

Arguments Git_GetRef {W} _ _ _ _ _.
Arguments Git_CreateBlob {W} _ _ _ _ _.
Arguments Git_CreateTree {W} _ _ _ _ _ _.
Arguments Git_CreateCommit {W} _ _ _ _ _.
Arguments Git_CreateRef {W} _ _ _ _ _.
Arguments Git_UpdateRef {W} _ _ _ _ _ _.
Arguments Repositories_GetCommit {W} _ _ _ _ _.
Arguments Repositories_GetContents {W} _ _ _ _ _ _.
Arguments Repositories_Get {W} _ _ _ _.
Arguments Repositories_Create {W} _ _ _ _.
Arguments RepositoryContent_GetContent {W} _ _.
Arguments os_ReadFile {W} _ _ _.

(** ** Go control flow: world, trace, early return, panic *)

(** How a statement ends: it falls through with a value, the enclosing
    function returns, or the goroutine panics. *)
Inductive Flow (R A : Type) : Type :=
| Next (a : A)
| Return (r : R)
| Panic.

Arguments Next {R A} a.
Arguments Return {R A} r.
Arguments Panic {R A}.

Definition Go (W R A : Type) : Type := W → Flow R A * W * list Event.

Definition ret {W R A} (a : A) : Go W R A := λ w, (Next a, w, []).

Definition return_ {W R A} (r : R) : Go W R A := λ w, (Return r, w, []).

Definition panic {W R A} : Go W R A := λ w, (Panic, w, []).

Definition bind {W R A B} (m : Go W R A) (k : A → Go W R B) : Go W R B :=
  λ w,
    match m w with
    | (Next a, w1, t1) =>
        match k a w1 with
        | (f, w2, t2) => (f, w2, t1 ++ t2)
        end
    | (Return r, w1, t1) => (Return r, w1, t1)
    | (Panic, w1, t1) => (Panic, w1, t1)
    end.

(** One call to the outside: the world moves, the call is recorded. *)
Definition call {W R A} (e : Event) (op : W → A * W) : Go W R A :=
  λ w, match op w with (a, w1) => (Next a, w1, [e]) end.

(** A printed line: recorded, the world is left alone. *)
Definition emit {W R} (e : Event) : Go W R unit := λ w, (Next tt, w, [e]).

Declare Scope go_scope.
Delimit Scope go_scope with go.

Notation "'do' x <~ m ;; k" := (bind m (λ x, k))
  (at level 10, x name, m at level 99, k at level 200) : go_scope.
Notation "'do*' p <~ m ;; k" := (bind m (λ x, match x with p => k end))
  (at level 10, p pattern, m at level 99, k at level 200) : go_scope.
Notation "'exec' m ;; k" := (bind m (λ _, k))
  (at level 10, m at level 99, k at level 200) : go_scope.

(** How a call of a Go function ends. *)
Inductive Exit (R : Type) : Type :=
| Returned (r : R)
| Panicked.

Arguments Returned {R} r.
Arguments Panicked {R}.

Definition run {W R} (body : Go W R R) (w : W) : Exit R * W * list Event :=
  match body w with
  | (Next r, w1, t) => (Returned r, w1, t)
  | (Return r, w1, t) => (Returned r, w1, t)
  | (Panic, w1, t) => (Panicked, w1, t)
  end.

(** ** The program *)

(** A Go [map[string]string] whose keys are iterated in the order
    [order]: Go fixes no order, so any arrangement of the map's entries
    is one the [range] loops may follow. *)
Definition ranges_over (files : gmap string string)
    (order : list (string * string)) : Prop :=
  order ≡ₚ map_to_list files.

(** What [upsertMultipleFilesSafe] returns: [(result, err)]. *)
Definition Upserted : Type := gmap string string * option error.

Definition newBlob (content : string) : Blob :=
  {| Blob_Content := Some content;
     Blob_Encoding := Some "utf-8"%string;
     Blob_SHA := None |}.

Definition newTreeEntry (path : string) (blob : Blob) : TreeEntry :=
  {| TreeEntry_SHA := Blob_SHA blob;
     TreeEntry_Path := Some path;
     TreeEntry_Mode := Some "100644"%string;
     TreeEntry_Type := Some "blob"%string |}.

(** [ok && (StatusCode == 404 || StatusCode == 409)] on the error of the
    first GetRef. *)
Definition branch_missing (err : error) : bool :=
  match err with
  | ErrorResponse code => bool_decide (code = 404) || bool_decide (code = 409)
  | _ => false
  end.

Definition newline : string := String (Ascii.ascii_of_nat 10) EmptyString.

(** [resp != nil && resp.StatusCode == 404]. *)
Definition is_404 (resp : option Response) : bool :=
  match resp with
  | Some r => bool_decide (StatusCode r = 404)
  | None => false
  end.

Section Program.
Context {W : Type}.
Variable client : Client W.

Local Open Scope go_scope.

(** Lines 30-48: the [range files] loop of the bootstrap path. *)
Fixpoint bootstrap_range (owner repo : string)
    (files : list (string * string))
    (result : gmap string string) (treeEntries : list TreeEntry)
    : Go W Upserted (gmap string string * list TreeEntry) :=
  match files with
  | [] => ret (result, treeEntries)
  | (path, content) :: rest =>
      let result := <[path := "created"%string]> result in
      do b <~ call (CreateBlob owner repo (newBlob content))
                (Git_CreateBlob client owner repo (newBlob content)) ;;
      match b with
      | inr err =>
          let result := <[path := "error"%string]> result in
          return_ (result,
            Some (wrapError "CreateBlob (init): " err EmptyString))
      | inl blob =>
          bootstrap_range owner repo rest result
            (treeEntries ++ [newTreeEntry path blob])
      end
  end.

(** Lines 102-136: the [range files] loop of the update path.  Every
    [continue] is the recursive call on the rest of the files. *)
Fixpoint update_range (owner repo branch : string)
    (files : list (string * string))
    (result : gmap string string) (treeEntries : list TreeEntry)
    : Go W Upserted (gmap string string * list TreeEntry) :=
  match files with
  | [] => ret (result, treeEntries)
  | (path, newContent) :: rest =>
      let result := <[path := "error"%string]> result in
      let write (result : gmap string string) :=
        do b <~ call (CreateBlob owner repo (newBlob newContent))
                  (Git_CreateBlob client owner repo (newBlob newContent)) ;;
        match b with
        | inr _ => update_range owner repo branch rest result treeEntries
        | inl blob =>
            update_range owner repo branch rest result
              (treeEntries ++ [newTreeEntry path blob])
        end in
      do* (current, resp, err) <~
        call (GetContents owner repo path branch)
             (Repositories_GetContents client owner repo path branch) ;;
      if is_404 resp then write (<[path := "created"%string]> result)
      else
        match err, current with
        | None, Some current =>
            match RepositoryContent_GetContent client current with
            | (_, Some _) =>
                update_range owner repo branch rest result treeEntries
            | (decoded, None) =>
                if bool_decide (decoded = newContent) then
                  update_range owner repo branch rest
                    (<[path := "skipped"%string]> result) treeEntries
                else write (<[path := "updated"%string]> result)
            end
        | Some _, _ =>
            update_range owner repo branch rest result treeEntries
        | None, None => write result
        end
  end.

(** Lines 29-77: the bootstrap path, entered with the empty [result]. *)
Definition bootstrap (owner repo branch : string)
    (files : list (string * string)) (result : gmap string string)
    : Go W Upserted Upserted :=
  exec emit (LogPrintln
    "Branch doesn't exist — repo may be empty. Creating initial commit...") ;;
  do* (result, treeEntries) <~ bootstrap_range owner repo files result [] ;;
  do t <~ call (CreateTree owner repo EmptyString treeEntries)
            (Git_CreateTree client owner repo EmptyString treeEntries) ;;
  match t with
  | inr err =>
      return_ (result, Some (wrapError "CreateTree (init): " err EmptyString))
  | inl tree =>
      let commit :=
        {| Commit_SHA := None;
           Commit_Message := Some "Initial commit"%string;
           Commit_Tree := Some tree;
           Commit_Parents := [];
           Commit_HTMLURL := None |} in
      do c <~ call (CreateCommit owner repo commit)
                (Git_CreateCommit client owner repo commit) ;;
      match c with
      | inr err =>
          return_ (result,
            Some (wrapError "CreateCommit (init): " err EmptyString))
      | inl newCommit =>
          let ref :=
            {| Reference_Ref := Some ("refs/heads/" +:+ branch);
               Reference_URL := None;
               Reference_Object :=
                 Some {| GitObject_Type := None;
                         GitObject_SHA := Commit_SHA newCommit;
                         GitObject_URL := None |} |} in
          do e <~ call (CreateRef owner repo ref)
                    (Git_CreateRef client owner repo ref) ;;
          match e with
          | Some err =>
              return_ (result,
                Some (wrapError "CreateRef (init): " err EmptyString))
          | None =>
              exec emit (LogPrintln "Initial commit and branch created.") ;;
              return_ (result, None)
          end
      end
  end.

(** The single parent of the update commit: [{SHA: originalHeadSHA}]. *)
Definition parentOf (originalHeadSHA : string) : Commit :=
  {| Commit_SHA := Some originalHeadSHA;
     Commit_Message := None;
     Commit_Tree := None;
     Commit_Parents := [];
     Commit_HTMLURL := None |}.

(** Lines 138-181: what follows the loop of the update path.  The
    second nil check of [baseCommit.Commit] (line 156) can never fire
    after the one of line 94 and has no counterpart here.  Line 174
    writes through [ref.Object], and the library's UpdateRef reads
    [*ref.Ref] before it builds its request: a resolved ref without an
    object or without a name panics there, the second after the call
    was entered and before anything reached the remote. *)
Definition commit_update (owner repo branch commitMessage : string)
    (ref : Reference) (originalHeadSHA baseTreeSHA : string)
    (result : gmap string string) (treeEntries : list TreeEntry)
    : Go W Upserted Upserted :=
  match treeEntries with
  | [] =>
      exec emit (FmtPrintln "No changes to commit.") ;;
      return_ (result, None)
  | _ :: _ =>
      do rc <~ call (GetRef owner repo ("refs/heads/" +:+ branch))
                 (Git_GetRef client owner repo ("refs/heads/" +:+ branch)) ;;
      match rc with
      | inr err =>
          return_ (result, Some (wrapError "Recheck GetRef: " err EmptyString))
      | inl refCheck =>
          if bool_decide
               (GitObject_GetSHA (Reference_Object refCheck) = originalHeadSHA)
          then
            do t <~ call (CreateTree owner repo baseTreeSHA treeEntries)
                      (Git_CreateTree client owner repo baseTreeSHA treeEntries) ;;
            match t with
            | inr err =>
                return_ (result, Some (wrapError "CreateTree: " err EmptyString))
            | inl newTree =>
                let newCommit :=
                  {| Commit_SHA := None;
                     Commit_Message := Some commitMessage;
                     Commit_Tree := Some newTree;
                     Commit_Parents := [parentOf originalHeadSHA];
                     Commit_HTMLURL := None |} in
                do c <~ call (CreateCommit owner repo newCommit)
                          (Git_CreateCommit client owner repo newCommit) ;;
                match c with
                | inr err =>
                    return_ (result,
                      Some (wrapError "CreateCommit: " err EmptyString))
                | inl commit =>
                    match Reference_Object ref with
                    | None => panic
                    | Some object =>
                        let ref :=
                          {| Reference_Ref := Reference_Ref ref;
                             Reference_URL := Reference_URL ref;
                             Reference_Object :=
                               Some {| GitObject_Type := GitObject_Type object;
                                       GitObject_SHA := Commit_SHA commit;
                                       GitObject_URL := GitObject_URL object |} |} in
                        match Reference_Ref ref with
                        | None =>
                            exec emit (UpdateRef owner repo ref false) ;;
                            panic
                        | Some _ =>
                            do e <~ call (UpdateRef owner repo ref false)
                                      (Git_UpdateRef client owner repo ref false) ;;
                            match e with
                            | Some err =>
                                return_ (result,
                                  Some (wrapError "UpdateRef: " err EmptyString))
                            | None =>
                                exec emit (FmtPrintln
                                  ("Commit created: " +:+
                                   Commit_GetHTMLURL commit)) ;;
                                return_ (result, None)
                            end
                        end
                    end
                end
            end
          else
            return_ (result,
              Some (errorString
                "Branch was updated during operation (SHA mismatch)"))
      end
  end.

(** Lines 82-181: the update path, entered with the resolved [ref] and
    the empty [result].  On a failed GetCommit the program formats
    [resp.Status] whether or not [resp] is nil: a nil [resp] panics. *)
Definition update (owner repo branch commitMessage : string)
    (files : list (string * string)) (ref : Reference)
    (result : gmap string string) : Go W Upserted Upserted :=
  let originalHeadSHA := GitObject_GetSHA (Reference_Object ref) in
  do* (baseCommit, resp, err) <~
    call (GetCommit owner repo originalHeadSHA)
         (Repositories_GetCommit client owner repo originalHeadSHA) ;;
  match err with
  | Some err =>
      match resp with
      | None => panic
      | Some resp =>
          do body <~ call (ReadFile (Request_URL_Path resp))
                       (os_ReadFile client (Request_URL_Path resp)) ;;
          return_ (result,
            Some (wrapError "GetCommit error: " err
                    (newline +:+ "Status: " +:+ Status resp +:+
                     newline +:+ "Body: " +:+ body)))
      end
  | None =>
      match baseCommit ≫= RepositoryCommit_Commit with
      | None =>
          return_ (result,
            Some (errorString
              "baseCommit or baseCommit.Commit is nil — SHA might be invalid or repo in bad state"))
      | Some commit =>
          let baseTreeSHA := Tree_GetSHA (Commit_Tree commit) in
          do* (result, treeEntries) <~
            update_range owner repo branch files result [] ;;
          commit_update owner repo branch commitMessage ref
            originalHeadSHA baseTreeSHA result treeEntries
      end
  end.

(** Lines 15-182. [files] is the map in the order the loops range over
    it. *)
Definition upsertMultipleFilesSafe_body (owner repo branch : string)
    (files : list (string * string)) (commitMessage : string)
    : Go W Upserted Upserted :=
  let result : gmap string string := ∅ in
  do r <~ call (GetRef owner repo ("refs/heads/" +:+ branch))
            (Git_GetRef client owner repo ("refs/heads/" +:+ branch)) ;;
  match r with
  | inr err =>
      if branch_missing err then bootstrap owner repo branch files result
      else return_ (result, Some (wrapError "GetRef: " err EmptyString))
  | inl ref => update owner repo branch commitMessage files ref result
  end.

Definition upsertMultipleFilesSafe (owner repo branch : string)
    (files : list (string * string)) (commitMessage : string) (w : W)
    : Exit Upserted * W * list Event :=
  run (upsertMultipleFilesSafe_body owner repo branch files commitMessage) w.

(** Lines 184-212. *)
Definition createRepo_body (owner repoName : string)
    : Go W (option error) (option error) :=
  do* (resp, err) <~ call (ReposGet owner repoName)
                       (Repositories_Get client owner repoName) ;;
  match err with
  | None =>
      exec emit (LogPrintln
        ("Repo already exists: " +:+
         "https://github.com/" +:+ owner +:+ "/" +:+ repoName)) ;;
      return_ None
  | Some err =>
      if match resp with
         | Some r => negb (bool_decide (StatusCode r = 404))
         | None => false
         end
      then
        return_
          (Some (wrapError "Error checking if repo exists: " err EmptyString))
      else
        let repo :=
          {| Repository_Name := Some repoName;
             Repository_Description := Some "Auto-created with Go script"%string;
             Repository_Private := Some false;
             Repository_AutoInit := Some true;
             Repository_HTMLURL := None |} in
        do c <~ call (ReposCreate EmptyString repo)
                  (Repositories_Create client EmptyString repo) ;;
        match c with
        | inr err =>
            return_ (Some (wrapError "Error creating repo: " err EmptyString))
        | inl createdRepo =>
            exec emit (LogPrintln
              ("Repo created: " +:+ Repository_GetHTMLURL createdRepo)) ;;
            return_ None
        end
  end.

Definition createRepo (owner repoName : string) (w : W)
    : Exit (option error) * W * list Event :=
  run (createRepo_body owner repoName) w.

End Program.

(** ** A Git host to run the program against

    A small in-memory host with one repository and one branch: content
    addressed by generated object names, trees as path-to-content
    snapshots, a fast-forward check on ref updates.  Three knobs stand
    for what a real remote adds: [quota] write calls are accepted before
    the host answers 403, the next [outage] calls get no response at all,
    and [rival] is a commit another writer pushes while a blob of ours
    uploads.  The theorems below hold for every client; this one gives
    them concrete runs. *)
Module Fake.

Record Host : Type := mkHost {
  repository : bool;
  head : option string;
  commits : gmap string (string * list string);
  trees : gmap string (gmap string string);
  blobs : gmap string string;
  fresh : nat;
  quota : nat;
  outage : nat;
  rival : option string
}.

Definition timeout : error :=
  errorString "net/http: request canceled (Client.Timeout exceeded)".

Definition response (code : Z) (status : string) : Response :=
  {| StatusCode := code; Status := status; Request_URL_Path := "/repos" |}.

Definition ok : Response := response 200 "200 OK".
Definition notFound : Response := response 404 "404 Not Found".

(** [Some h'] when the call is lost on the way: no response, one
    outage tick spent. *)
Definition lost (h : Host) : option Host :=
  match outage h with
  | O => None
  | S n =>
      Some (mkHost (repository h) (head h) (commits h) (trees h) (blobs h)
              (fresh h) (quota h) n (rival h))
  end.

(** [Some (name, h')] when a write is accepted: a fresh object name,
    one unit of quota spent. *)
Definition accept (kind : string) (h : Host) : option (string * Host) :=
  match quota h with
  | O => None
  | S n =>
      Some (kind +:+ pretty (fresh h),
            mkHost (repository h) (head h) (commits h) (trees h) (blobs h)
              (S (fresh h)) n (outage h) (rival h))
  end.

Definition set_head (sha : option string) (h : Host) : Host :=
  mkHost (repository h) sha (commits h) (trees h) (blobs h)
    (fresh h) (quota h) (outage h) (rival h).

Definition snapshot (h : Host) : gmap string string :=
  default ∅ (head h ≫= λ c, commits h !! c ≫= λ t, trees h !! t.1).

(** A path is a directory when some file lives below it. *)
Definition is_dir (path : string) (files : gmap string string) : bool :=
  existsb (λ kv, String.prefix (path +:+ "/") kv.1) (map_to_list files).

Definition getRef (owner repo ref : string) (h : Host)
    : (Reference + error) * Host :=
  match lost h with
  | Some h => (inr timeout, h)
  | None =>
      match head h with
      | Some sha =>
          (inl {| Reference_Ref := Some ref;
                  Reference_URL := None;
                  Reference_Object :=
                    Some {| GitObject_Type := Some "commit"%string;
                            GitObject_SHA := Some sha;
                            GitObject_URL := None |} |}, h)
      | None => (inr (ErrorResponse 404), h)
      end
  end.

Definition getCommit (owner repo sha : string) (h : Host)
    : (option RepositoryCommit * option Response * option error) * Host :=
  match lost h with
  | Some h => ((None, None, Some timeout), h)
  | None =>
      match commits h !! sha with
      | Some (tree, parents) =>
          ((Some {| RepositoryCommit_SHA := Some sha;
                    RepositoryCommit_Commit :=
                      Some {| Commit_SHA := Some sha;
                              Commit_Message := None;
                              Commit_Tree := Some (mkTree (Some tree) []);
                              Commit_Parents := [];
                              Commit_HTMLURL := None |} |},
            Some ok, None), h)
      | None => ((None, Some notFound, Some (ErrorResponse 404)), h)
      end
  end.

Definition getContents (owner repo path ref : string) (h : Host)
    : (option RepositoryContent * option Response * option error) * Host :=
  match lost h with
  | Some h => ((None, None, Some timeout), h)
  | None =>
      match snapshot h !! path with
      | Some content =>
          ((Some {| RepositoryContent_Encoding := None;
                    RepositoryContent_Content := Some content |},
            Some ok, None), h)
      | None =>
          if is_dir path (snapshot h) then ((None, Some ok, None), h)
          else ((None, Some notFound, Some (ErrorResponse 404)), h)
      end
  end.

(** The decoder: plain content is returned as it is, any other
    encoding is refused. *)
Definition getContent (c : RepositoryContent) : string * option error :=
  match RepositoryContent_Encoding c with
  | None => (GetString (RepositoryContent_Content c), None)
  | Some _ => (EmptyString, Some (errorString "unsupported content encoding"))
  end.

Definition createBlob (owner repo : string) (b : Blob) (h : Host)
    : (Blob + error) * Host :=
  match lost h with
  | Some h => (inr timeout, h)
  | None =>
      match accept "blob" h with
      | None => (inr (ErrorResponse 403), h)
      | Some (sha, h) =>
          let h :=
            mkHost (repository h)
              (match rival h with Some c => Some c | None => head h end)
              (commits h) (trees h)
              (<[sha := GetString (Blob_Content b)]> (blobs h))
              (fresh h) (quota h) (outage h) None in
          (inl (mkBlob None None (Some sha)), h)
      end
  end.

(** The snapshot a tree call describes: the base tree with every entry
    whose blob is known laid over it. *)
Definition overlay (h : Host) (base : gmap string string)
    (entries : list TreeEntry) : gmap string string :=
  foldl (λ files e,
           match blobs h !! GetString (TreeEntry_SHA e) with
           | Some content => <[GetString (TreeEntry_Path e) := content]> files
           | None => files
           end) base entries.

Definition createTree (owner repo baseTree : string)
    (entries : list TreeEntry) (h : Host) : (Tree + error) * Host :=
  match lost h with
  | Some h => (inr timeout, h)
  | None =>
      match accept "tree" h with
      | None => (inr (ErrorResponse 403), h)
      | Some (sha, h) =>
          let files := overlay h (default ∅ (trees h !! baseTree)) entries in
          (inl (mkTree (Some sha) entries),
           mkHost (repository h) (head h) (commits h)
             (<[sha := files]> (trees h)) (blobs h)
             (fresh h) (quota h) (outage h) (rival h))
      end
  end.

Definition createCommit (owner repo : string) (c : Commit) (h : Host)
    : (Commit + error) * Host :=
  match lost h with
  | Some h => (inr timeout, h)
  | None =>
      match accept "commit" h with
      | None => (inr (ErrorResponse 403), h)
      | Some (sha, h) =>
          let parents :=
            (λ p, GetString (Commit_SHA p)) <$> Commit_Parents c in
          (inl (mkCommit (Some sha) (Commit_Message c) (Commit_Tree c)
                  (Commit_Parents c)
                  (Some ("https://git.example/commit/" +:+ sha))),
           mkHost (repository h) (head h)
             (<[sha := (Tree_GetSHA (Commit_Tree c), parents)]> (commits h))
             (trees h) (blobs h)
             (fresh h) (quota h) (outage h) (rival h))
      end
  end.

Definition createRef (owner repo : string) (r : Reference) (h : Host)
    : option error * Host :=
  match lost h with
  | Some h => (Some timeout, h)
  | None =>
      match head h, accept "ref" h with
      | None, Some (_, h) =>
          (None, set_head (Some (GitObject_GetSHA (Reference_Object r))) h)
      | Some _, _ => (Some (ErrorResponse 422), h)
      | None, None => (Some (ErrorResponse 403), h)
      end
  end.

(** Without [force] the new commit must have the current head among
    its parents. *)
Definition updateRef (owner repo : string) (r : Reference) (force : bool)
    (h : Host) : option error * Host :=
  match lost h with
  | Some h => (Some timeout, h)
  | None =>
      let sha := GitObject_GetSHA (Reference_Object r) in
      let parents := default [] (snd <$> commits h !! sha) in
      match head h, accept "ref" h with
      | Some old, Some (_, h) =>
          if force || bool_decide (old ∈ parents)
          then (None, set_head (Some sha) h)
          else (Some (ErrorResponse 422), h)
      | None, _ => (Some (ErrorResponse 422), h)
      | Some _, None => (Some (ErrorResponse 403), h)
      end
  end.

Definition getRepository (owner repo : string) (h : Host)
    : (option Response * option error) * Host :=
  match lost h with
  | Some h => ((None, Some timeout), h)
  | None =>
      if repository h then ((Some ok, None), h)
      else ((Some notFound, Some (ErrorResponse 404)), h)
  end.

Definition createRepository (org : string) (r : Repository) (h : Host)
    : (Repository + error) * Host :=
  match lost h with
  | Some h => (inr timeout, h)
  | None =>
      if repository h then (inr (ErrorResponse 422), h)
      else
        (inl (mkRepository (Repository_Name r) (Repository_Description r)
                (Repository_Private r) (Repository_AutoInit r)
                (Some ("https://git.example/" +:+ GetString (Repository_Name r)))),
         mkHost true (head h) (commits h) (trees h) (blobs h)
           (fresh h) (quota h) (outage h) (rival h))
  end.

(** No local file is named like a request path: the read yields no
    bytes. *)
Definition readFile (name : string) (h : Host) : string * Host :=
  (EmptyString, h).

Definition client : Client Host :=
  {| Git_GetRef := getRef;
     Git_CreateBlob := createBlob;
     Git_CreateTree := createTree;
     Git_CreateCommit := createCommit;
     Git_CreateRef := createRef;
     Git_UpdateRef := updateRef;
     Repositories_GetCommit := getCommit;
     Repositories_GetContents := getContents;
     Repositories_Get := getRepository;
     Repositories_Create := createRepository;
     RepositoryContent_GetContent := getContent;
     os_ReadFile := readFile |}.

(** A host without the repository. *)
Definition nothing : Host :=
  mkHost false None ∅ ∅ ∅ 0 100 0 None.

(** The repository exists, its branch does not. *)
Definition unborn : Host :=
  mkHost true None ∅ ∅ ∅ 0 100 0 None.

(** A branch at commit [c0] holding [files]. *)
Definition branch_with (files : gmap string string) : Host :=
  mkHost true (Some "c0"%string) {[ "c0"%string := ("t0"%string, []) ]}
    {[ "t0"%string := files ]} ∅ 0 100 0 None.

Definition with_quota (n : nat) (h : Host) : Host :=
  mkHost (repository h) (head h) (commits h) (trees h) (blobs h)
    (fresh h) n (outage h) (rival h).

Definition with_outage (n : nat) (h : Host) : Host :=
  mkHost (repository h) (head h) (commits h) (trees h) (blobs h)
    (fresh h) (quota h) n (rival h).

Definition with_rival (sha : string) (h : Host) : Host :=
  mkHost (repository h) (head h) (<[sha := ("t0"%string, ["c0"%string])]> (commits h))
    (trees h) (blobs h) (fresh h) (quota h) (outage h) (Some sha).

End Fake.

(** ** Vocabulary of the properties *)

(** The four outcome strings the program writes into [result]. *)
Definition statuses : list string :=
  ["created"; "updated"; "skipped"; "error"]%string.

(** Calls that add to the history of the branch or move it. *)
Definition mutates_history (e : Event) : bool :=
  match e with
  | CreateTree _ _ _ _ | CreateCommit _ _ _ | CreateRef _ _ _
  | UpdateRef _ _ _ _ => true
  | _ => false
  end.


(** The calls made inside the two [range] loops. *)
Definition loop_call (e : Event) : bool :=
  match e with
  | GetContents _ _ _ _ | CreateBlob _ _ _ => true
  | _ => false
  end.

(** The returns taken before the per-file loop has seen every file: the
    first GetRef failing for good, the base commit missing, and the
    fail-fast blob error of the bootstrap loop. *)
Definition aborted_early (err : option error) : bool :=
  match err with
  | Some (wrapError prefix _ _) =>
      bool_decide (prefix ∈ ["GetRef: "; "GetCommit error: ";
                              "CreateBlob (init): "]%string)
  | Some (errorString s) =>
      bool_decide (s =
        "baseCommit or baseCommit.Commit is nil — SHA might be invalid or repo in bad state"%string)
  | _ => false
  end.

(** The repository [createRepo] asks for. *)
Definition requestedRepository (repoName : string) : Repository :=
  {| Repository_Name := Some repoName;
     Repository_Description := Some "Auto-created with Go script"%string;
     Repository_Private := Some false;
     Repository_AutoInit := Some true;
     Repository_HTMLURL := None |}.

Section Vocabulary.
Context {W : Type}.
Variable client : Client W.

(** One round of the update loop, read off lines 103-135: the status
    left in [result] for [path], the tree entry appended if any, the
    world after the round and the calls made. *)
Definition update_round (owner repo branch path newContent : string)
    (w : W) : (string * option TreeEntry) * W * list Event :=
  match Repositories_GetContents client owner repo path branch w with
  | ((current, resp, err), w1) =>
      let read := GetContents owner repo path branch in
      let upload := CreateBlob owner repo (newBlob newContent) in
      let write (status : string) :=
        match Git_CreateBlob client owner repo (newBlob newContent) w1 with
        | (inr _, w2) => ((status, None), w2, [read; upload])
        | (inl blob, w2) =>
            ((status, Some (newTreeEntry path blob)), w2, [read; upload])
        end in
      if is_404 resp then write "created"%string
      else
        match err, current with
        | None, Some current =>
            match RepositoryContent_GetContent client current with
            | (_, Some _) => (("error"%string, None), w1, [read])
            | (decoded, None) =>
                if bool_decide (decoded = newContent)
                then (("skipped"%string, None), w1, [read])
                else write "updated"%string
            end
        | Some _, _ => (("error"%string, None), w1, [read])
        | None, None => write "error"%string
        end
  end.


(** C4 as the specification words it: the returned map has a status
    for every path of the FileSet. *)
Definition outcome_total (files : gmap string string)
    (out : Exit Upserted) : Prop :=
  ∃ result err, out = Returned (result, err) ∧
    ∀ path, path ∈ dom files →
      ∃ status, result !! path = Some status ∧ status ∈ statuses.


End Vocabulary.

(** ** The rest of the file: [createInitialMainBranch] and [main] *)

(** How the process ends: [main] returns, or [log.Fatal] prints
    [message] followed by [cause] and exits with status 1. *)
Inductive Exited : Type :=
| Done
| Fatal (message : string) (cause : option error).

(** What [main] takes from its process besides the remote: the
    environment, the local files (here with the error [main] checks),
    and the client that [github.NewClient] builds around a token. *)
Record Process (W : Type) : Type := mkProcess {
  os_Getenv : string → W → string;
  os_ReadFile_checked : string → W → (string + error) * W;
  github_NewClient : string → Client W
}.

Arguments os_Getenv {W} _ _ _.
Arguments os_ReadFile_checked {W} _ _ _.
Arguments github_NewClient {W} _ _.

(** A read of the world that leaves no trace. *)
Definition peek {W R A} (f : W → A) : Go W R A := λ w, (Next (f w), w, []).

(** A call of another Go function: its value on return, its panic
    otherwise. *)
Definition invoke {W R R'} (f : W → Exit R * W * list Event) : Go W R' R :=
  λ w,
    match f w with
    | (Returned r, w1, t) => (Next r, w1, t)
    | (Panicked, w1, t) => (Panic, w1, t)
    end.

Section Rest.
Context {W : Type}.

Local Open Scope go_scope.

(** Lines 219-234: the [range files] loop of [createInitialMainBranch]. *)
Fixpoint createInitialMainBranch_range (client : Client W)
    (owner repo : string) (files : list (string * string))
    (treeEntries : list TreeEntry) : Go W (option error) (list TreeEntry) :=
  match files with
  | [] => ret treeEntries
  | (path, content) :: rest =>
      do b <~ call (CreateBlob owner repo (newBlob content))
                (Git_CreateBlob client owner repo (newBlob content)) ;;
      match b with
      | inr err =>
          return_ (Some (wrapError "failed to create blob: " err EmptyString))
      | inl blob =>
          createInitialMainBranch_range client owner repo rest
            (treeEntries ++ [newTreeEntry path blob])
      end
  end.

(** Lines 214-266. *)
Definition createInitialMainBranch_body (client : Client W)
    (owner repo : string) (files : list (string * string))
    : Go W (option error) (option error) :=
  do treeEntries <~ createInitialMainBranch_range client owner repo files [] ;;
  do t <~ call (CreateTree owner repo EmptyString treeEntries)
            (Git_CreateTree client owner repo EmptyString treeEntries) ;;
  match t with
  | inr err =>
      return_ (Some (wrapError "failed to create tree: " err EmptyString))
  | inl tree =>
      let commit :=
        {| Commit_SHA := None;
           Commit_Message := Some "Initial commit"%string;
           Commit_Tree := Some tree;
           Commit_Parents := [];
           Commit_HTMLURL := None |} in
      do c <~ call (CreateCommit owner repo commit)
                (Git_CreateCommit client owner repo commit) ;;
      match c with
      | inr err =>
          return_ (Some (wrapError "failed to create commit: " err EmptyString))
      | inl newCommit =>
          let ref :=
            {| Reference_Ref := Some "refs/heads/main"%string;
               Reference_URL := None;
               Reference_Object :=
                 Some {| GitObject_Type := None;
                         GitObject_SHA := Commit_SHA newCommit;
                         GitObject_URL := None |} |} in
          do e <~ call (CreateRef owner repo ref)
                    (Git_CreateRef client owner repo ref) ;;
          match e with
          | Some err =>
              return_ (Some (wrapError "failed to create ref: " err EmptyString))
          | None =>
              exec emit (FmtPrintln
                "✅ Created main branch with initial commit") ;;
              return_ None
          end
      end
  end.

Definition createInitialMainBranch (client : Client W)
    (owner repo : string) (files : list (string * string)) (w : W)
    : Exit (option error) * W * list Event :=
  run (createInitialMainBranch_body client owner repo files) w.

(** Lines 286-296: [main] fills [files] from the local files. *)
Fixpoint main_read (proc : Process W) (localFiles : list string)
    (files : gmap string string) : Go W Exited (gmap string string) :=
  match localFiles with
  | [] => ret files
  | localPath :: rest =>
      do c <~ call (ReadFile localPath) (os_ReadFile_checked proc localPath) ;;
      match c with
      | inr err =>
          return_ (Fatal ("Failed to read " +:+ localPath +:+ ": ") (Some err))
      | inl content => main_read proc rest (<[localPath := content]> files)
      end
  end.

(** Lines 321-323: one line per entry of [result], in the order the
    loop ranges over it.  [Printf] with a final newline prints what
    [Println] prints. *)
Fixpoint main_summary (entries : list (string * string)) : Go W Exited unit :=
  match entries with
  | [] => ret tt
  | (file, status) :: rest =>
      exec emit (FmtPrintln ("  " +:+ file +:+ " → " +:+ status)) ;;
      main_summary rest
  end.

(** Lines 268-324.  [rangeFiles] and [rangeResult] are the orders the
    two [range] loops over maps follow. *)
Definition main_body (proc : Process W)
    (rangeFiles rangeResult : gmap string string → list (string * string))
    : Go W Exited Exited :=
  do token <~ peek (os_Getenv proc "GITHUB_TOKEN") ;;
  if bool_decide (token = EmptyString) then
    return_ (Fatal "GITHUB_TOKEN is not set in the environment" None)
  else
    let owner := "Santosh-etailify"%string in
    let repo := "gitapis10"%string in
    let branch := "main"%string in
    let commitMessage := "Upsert files from Go script"%string in
    do files <~ main_read proc ["main.go"%string] ∅ ;;
    let client := github_NewClient proc token in
    do err <~ invoke (createRepo client owner repo) ;;
    match err with
    | Some err => return_ (Fatal "Failed to create repo: " (Some err))
    | None =>
        do* (result, err) <~
          invoke (upsertMultipleFilesSafe client owner repo branch
                    (rangeFiles files) commitMessage) ;;
        match err with
        | Some err => return_ (Fatal "Failed to upsert files: " (Some err))
        | None =>
            exec emit (FmtPrintln "File Update Summary:") ;;
            exec main_summary (rangeResult result) ;;
            ret Done
        end
    end.

Definition main (proc : Process W)
    (rangeFiles rangeResult : gmap string string → list (string * string))
    (w : W) : Exit Exited * W * list Event :=
  run (main_body proc rangeFiles rangeResult) w.

End Rest.

(** A process around the in-memory host: the token and the content of
    [main.go] are given, every other local file is missing. *)
Definition fakeProcess (token : string) (source : option string)
    : Process Fake.Host :=
  {| os_Getenv := λ name _,
       if bool_decide (name = "GITHUB_TOKEN"%string) then token
       else EmptyString;
     os_ReadFile_checked := λ name h,
       match source with
       | Some content =>
           if bool_decide (name = "main.go"%string) then (inl content, h)
           else (inr (errorString "no such file or directory"), h)
       | None => (inr (errorString "no such file or directory"), h)
       end;
     github_NewClient := λ _, Fake.client |}.

(** The in-memory host with one operation replaced: the commit lookup
    times out. *)
Definition withoutCommits : Client Fake.Host :=
  {| Git_GetRef := Fake.getRef;
     Git_CreateBlob := Fake.createBlob;
     Git_CreateTree := Fake.createTree;
     Git_CreateCommit := Fake.createCommit;
     Git_CreateRef := Fake.createRef;
     Git_UpdateRef := Fake.updateRef;
     Repositories_GetCommit := λ _ _ _ h, ((None, None, Some Fake.timeout), h);
     Repositories_GetContents := Fake.getContents;
     Repositories_Get := Fake.getRepository;
     Repositories_Create := Fake.createRepository;
     RepositoryContent_GetContent := Fake.getContent;
     os_ReadFile := Fake.readFile |}.

(** ** More vocabulary *)

(** Lines written to the terminal, as opposed to calls. *)
Definition is_print (e : Event) : bool :=
  match e with
  | LogPrintln _ | FmtPrintln _ => true
  | _ => false
  end.

(** Calls that go to the remote host. *)
Definition is_remote (e : Event) : bool :=
  match e with
  | ReadFile _ | LogPrintln _ | FmtPrintln _ => false
  | _ => true
  end.

(** The calls of a trace without the printed lines. *)
Definition calls (t : list Event) : list Event :=
  List.filter (λ e, negb (is_print e)) t.

(** The history-changing calls of a trace, in order. *)
Definition history (t : list Event) : list Event :=
  List.filter mutates_history t.

(** The commit creations of a trace, in order. *)
Definition commits (t : list Event) : list Event :=
  List.filter (λ e, match e with CreateCommit _ _ _ => true | _ => false end) t.

(** C3 as the specification words it: a commit is created only next to
    a tree call that carries at least one entry. *)
Definition commit_needs_entries (t : list Event) : Prop :=
  ∀ o r c, CreateCommit o r c ∈ t →
    ∃ baseTree entries, entries ≠ [] ∧ CreateTree o r baseTree entries ∈ t.





(** The content reads of a trace, in order. *)
Definition reads (t : list Event) : list Event :=
  List.filter (λ e, match e with GetContents _ _ _ _ => true | _ => false end) t.

(** The calls that address a repository name it as [owner]/[repo]. *)
Definition addressed_to (owner repo : string) (e : Event) : Prop :=
  match e with
  | GetRef o r _ | GetCommit o r _ | GetContents o r _ _
  | CreateBlob o r _ | CreateTree o r _ _ | CreateCommit o r _
  | CreateRef o r _ | UpdateRef o r _ _ | ReposGet o r => o = owner ∧ r = repo
  | ReposCreate _ _ | ReadFile _ | LogPrintln _ | FmtPrintln _ => True
  end.

(** A tree entry as the loops build them for a path of [files]. *)
Definition entry_of (files : list (string * string)) (e : TreeEntry) : Prop :=
  TreeEntry_Mode e = Some "100644"%string
  ∧ TreeEntry_Type e = Some "blob"%string
  ∧ ∃ path, TreeEntry_Path e = Some path ∧ path ∈ files.*1.

(** The paths of a list of tree entries. *)
Definition entry_paths (es : list TreeEntry) : list string :=
  (λ e, GetString (TreeEntry_Path e)) <$> es.

(** One tree, then one commit on it, then one move of the ref: the
    history calls of a trace form a start of this sequence. *)
Definition in_protocol_order (h : list Event) : bool :=
  match h with
  | [] => true
  | [CreateTree _ _ _ _] => true
  | [CreateTree _ _ _ _; CreateCommit _ _ _] => true
  | [CreateTree _ _ _ _; CreateCommit _ _ _; CreateRef _ _ _] => true
  | [CreateTree _ _ _ _; CreateCommit _ _ _; UpdateRef _ _ _ _] => true
  | _ => false
  end.

(** The calls that point the branch at a commit. *)
Definition moves_ref (e : Event) : bool :=
  match e with
  | CreateRef _ _ _ | UpdateRef _ _ _ _ => true
  | _ => false
  end.

(** What a part of the function guarantees about the history calls it
    made: they come in protocol order, and if it hands back a nil error
    there are none or the last one moves the ref. *)
Definition orderly (f : Flow Upserted Upserted) (t : list Event) : Prop :=
  in_protocol_order (history t) = true
  ∧ (∀ r, f = Return (r, None) ∨ f = Next (r, None) →
       history t = []
       ∨ ∃ e, last (history t) = Some e ∧ moves_ref e = true).

(** What [upsertMultipleFilesSafe] can do to the outside, read off its
    call sites. *)
Inductive upsert_event (owner repo branch : string)
    (files : list (string * string)) : Event → Prop :=
| upsert_GetRef :
    upsert_event owner repo branch files
      (GetRef owner repo ("refs/heads/" +:+ branch))
| upsert_GetCommit sha :
    upsert_event owner repo branch files (GetCommit owner repo sha)
| upsert_GetContents path content :
    (path, content) ∈ files →
    upsert_event owner repo branch files (GetContents owner repo path branch)
| upsert_CreateBlob path content :
    (path, content) ∈ files →
    upsert_event owner repo branch files
      (CreateBlob owner repo (newBlob content))
| upsert_CreateTree baseTree entries :
    Forall (entry_of files) entries →
    entry_paths entries `sublist_of` files.*1 →
    upsert_event owner repo branch files
      (CreateTree owner repo baseTree entries)
| upsert_CreateCommit commit :
    upsert_event owner repo branch files (CreateCommit owner repo commit)
| upsert_CreateRef ref :
    Reference_Ref ref = Some ("refs/heads/" +:+ branch) →
    upsert_event owner repo branch files (CreateRef owner repo ref)
| upsert_UpdateRef ref :
    upsert_event owner repo branch files (UpdateRef owner repo ref false)
| upsert_ReadFile name :
    upsert_event owner repo branch files (ReadFile name)
| upsert_LogPrintln line :
    upsert_event owner repo branch files (LogPrintln line)
| upsert_FmtPrintln line :
    upsert_event owner repo branch files (FmtPrintln line).

(** ** Reasoning about computations *)

Section Loops.
Context {W : Type}.
Variable client : Client W.

Lemma bind_call {R A B} (e : Event) (op : W → A * W) (k : A → Go W R B) w :
  bind (call e op) k w =
  match k (op w).1 (op w).2 with (f, w2, t2) => (f, w2, e :: t2) end.
Proof. unfold bind, call. destruct (op w) as [a w1]. reflexivity. Qed.

Lemma bind_emit {R B} (e : Event) (k : unit → Go W R B) w :
  bind (emit e) k w = match k tt w with (f, w2, t2) => (f, w2, e :: t2) end.
Proof. reflexivity. Qed.

(** The update loop, one round at a time. *)
Lemma update_range_cons owner repo branch path newContent rest result es w :
  update_range client owner repo branch ((path, newContent) :: rest) result es w =
  match update_round client owner repo branch path newContent w with
  | ((status, entry), w1, t1) =>
      match update_range client owner repo branch rest
              (<[path := status]> result) (es ++ option_list entry) w1 with
      | (f, w2, t2) => (f, w2, t1 ++ t2)
      end
  end.
Proof.
  cbn [update_range]. rewrite bind_call. unfold update_round.
  destruct (Repositories_GetContents client owner repo path branch w)
    as [[[current resp] err] w1]; cbn [fst snd].
  assert (Hwrite : ∀ status,
    bind (call (CreateBlob owner repo (newBlob newContent))
            (Git_CreateBlob client owner repo (newBlob newContent)))
      (λ b, match b with
            | inr _ => update_range client owner repo branch rest
                         (<[path := status]> (<[path := "error"%string]> result)) es
            | inl blob => update_range client owner repo branch rest
                         (<[path := status]> (<[path := "error"%string]> result))
                         (es ++ [newTreeEntry path blob])
            end) w1 =
    match
      match Git_CreateBlob client owner repo (newBlob newContent) w1 with
      | (inr _, w2) =>
          ((status, None), w2,
           [CreateBlob owner repo (newBlob newContent)])
      | (inl blob, w2) =>
          ((status, Some (newTreeEntry path blob)), w2,
           [CreateBlob owner repo (newBlob newContent)])
      end
    with
    | ((status, entry), w2, t1) =>
        match update_range client owner repo branch rest
                (<[path := status]> result) (es ++ option_list entry) w2 with
        | (f, w3, t2) => (f, w3, t1 ++ t2)
        end
    end).
  { intros status. rewrite bind_call, insert_insert_eq.
    destruct (Git_CreateBlob client owner repo (newBlob newContent) w1)
      as [[blob|e] w2]; cbn [fst snd option_list]; rewrite ?app_nil_r;
      destruct (update_range _ _ _ _ _ _ _ _) as [[f w3] t2]; reflexivity. }
  destruct (is_404 resp).
  - rewrite Hwrite.
    destruct (Git_CreateBlob client owner repo (newBlob newContent) w1)
      as [[blob|e] w2];
      destruct (update_range _ _ _ _ _ _ _ _) as [[f w3] t2]; reflexivity.
  - destruct err as [e|], current as [current|].
    + rewrite app_nil_r.
      destruct (update_range _ _ _ _ _ _ _ _) as [[f w3] t2]; reflexivity.
    + rewrite app_nil_r.
      destruct (update_range _ _ _ _ _ _ _ _) as [[f w3] t2]; reflexivity.
    + destruct (RepositoryContent_GetContent client current) as [decoded [e|]].
      * rewrite app_nil_r.
        destruct (update_range _ _ _ _ _ _ _ _) as [[f w3] t2]; reflexivity.
      * destruct (bool_decide (decoded = newContent)).
        -- rewrite insert_insert_eq, app_nil_r.
           destruct (update_range _ _ _ _ _ _ _ _) as [[f w3] t2]; reflexivity.
        -- rewrite Hwrite.
           destruct (Git_CreateBlob client owner repo (newBlob newContent) w1)
             as [[blob|e] w2];
             destruct (update_range _ _ _ _ _ _ _ _) as [[f w3] t2]; reflexivity.
    + specialize (Hwrite "error"%string). rewrite insert_insert_eq in Hwrite.
      rewrite Hwrite.
      destruct (Git_CreateBlob client owner repo (newBlob newContent) w1)
        as [[blob|e] w2];
        destruct (update_range _ _ _ _ _ _ _ _) as [[f w3] t2]; reflexivity.
Qed.

Lemma update_round_status owner repo branch path newContent w :
  (update_round client owner repo branch path newContent w).1.1.1 ∈ statuses.
Proof.
  unfold update_round, statuses.
  repeat case_match; cbn [fst snd]; set_solver.
Qed.

Lemma update_round_trace owner repo branch path newContent w :
  Forall (λ e, loop_call e = true)
    (update_round client owner repo branch path newContent w).2.
Proof.
  unfold update_round.
  repeat case_match; cbn [fst snd]; repeat constructor.
Qed.

Lemma update_round_entry owner repo branch path newContent w e :
  (update_round client owner repo branch path newContent w).1.1.2 = Some e →
  TreeEntry_Path e = Some path.
Proof.
  unfold update_round.
  repeat case_match; cbn [fst snd]; intros [= <-]; reflexivity.
Qed.

(** How one round classifies its file, case by case. *)
Lemma update_round_not_found owner repo branch path newContent w
    current resp err w1 blob w2 :
  Repositories_GetContents client owner repo path branch w
    = ((current, resp, err), w1) →
  is_404 resp = true →
  Git_CreateBlob client owner repo (newBlob newContent) w1 = (inl blob, w2) →
  update_round client owner repo branch path newContent w
  = (("created"%string, Some (newTreeEntry path blob)), w2,
     [GetContents owner repo path branch;
      CreateBlob owner repo (newBlob newContent)]).
Proof. intros Hget H404 Hblob. unfold update_round. by rewrite Hget, H404, Hblob. Qed.

Lemma update_round_unchanged owner repo branch path newContent w
    current resp w1 :
  Repositories_GetContents client owner repo path branch w
    = ((Some current, resp, None), w1) →
  is_404 resp = false →
  RepositoryContent_GetContent client current = (newContent, None) →
  update_round client owner repo branch path newContent w
  = (("skipped"%string, None), w1, [GetContents owner repo path branch]).
Proof.
  intros Hget H404 Hdec. unfold update_round.
  by rewrite Hget, H404, Hdec, bool_decide_eq_true_2.
Qed.

Lemma update_round_changed owner repo branch path newContent w
    current resp w1 decoded blob w2 :
  Repositories_GetContents client owner repo path branch w
    = ((Some current, resp, None), w1) →
  is_404 resp = false →
  RepositoryContent_GetContent client current = (decoded, None) →
  decoded ≠ newContent →
  Git_CreateBlob client owner repo (newBlob newContent) w1 = (inl blob, w2) →
  update_round client owner repo branch path newContent w
  = (("updated"%string, Some (newTreeEntry path blob)), w2,
     [GetContents owner repo path branch;
      CreateBlob owner repo (newBlob newContent)]).
Proof.
  intros Hget H404 Hdec Hne Hblob. unfold update_round.
  by rewrite Hget, H404, Hdec, bool_decide_eq_false_2, Hblob.
Qed.

Lemma update_round_read_failed owner repo branch path newContent w
    current resp e w1 :
  Repositories_GetContents client owner repo path branch w
    = ((current, resp, Some e), w1) →
  is_404 resp = false →
  update_round client owner repo branch path newContent w
  = (("error"%string, None), w1, [GetContents owner repo path branch]).
Proof.
  intros Hget H404. unfold update_round. rewrite Hget, H404.
  by destruct current.
Qed.

Lemma update_round_decode_failed owner repo branch path newContent w
    current resp w1 decoded e :
  Repositories_GetContents client owner repo path branch w
    = ((Some current, resp, None), w1) →
  is_404 resp = false →
  RepositoryContent_GetContent client current = (decoded, Some e) →
  update_round client owner repo branch path newContent w
  = (("error"%string, None), w1, [GetContents owner repo path branch]).
Proof.
  intros Hget H404 Hdec. unfold update_round. by rewrite Hget, H404, Hdec.
Qed.

(** A refused blob leaves the status the read had set: no tree entry,
    and the loop goes on. *)
Lemma update_round_blob_failed owner repo branch path newContent w
    current resp err w1 e w2 :
  Repositories_GetContents client owner repo path branch w
    = ((current, resp, err), w1) →
  Git_CreateBlob client owner repo (newBlob newContent) w1 = (inr e, w2) →
  (update_round client owner repo branch path newContent w).1.1.2 = None.
Proof.
  intros Hget Hblob. unfold update_round. rewrite Hget, Hblob.
  repeat case_match; reflexivity.
Qed.

(** The update loop never leaves the function: it falls through with
    a status for every file it ranged over, having made only content
    reads and blob uploads. *)
Lemma update_range_spec owner repo branch files :
  ∀ result es w,
  ∃ result' new w' t,
    update_range client owner repo branch files result es w
      = (Next (result', es ++ new), w', t)
    ∧ Forall (λ e, loop_call e = true) t
    ∧ (∀ p, p ∈ files.*1 →
         ∃ s, result' !! p = Some s ∧ s ∈ statuses)
    ∧ (∀ p, p ∉ files.*1 → result' !! p = result !! p)
    ∧ (∀ e, e ∈ new → ∃ p, TreeEntry_Path e = Some p ∧ p ∈ files.*1).
Proof.
  induction files as [|[path newContent] rest IH]; intros result es w.
  - exists result, [], w, []. cbn. rewrite app_nil_r.
    repeat split; [constructor | set_solver | set_solver].
  - rewrite update_range_cons.
    pose proof (update_round_status owner repo branch path newContent w) as Hs.
    pose proof (update_round_trace owner repo branch path newContent w) as Ht.
    pose proof (update_round_entry owner repo branch path newContent w) as He.
    destruct (update_round client owner repo branch path newContent w)
      as [[[status entry] w1] t1]; cbn [fst snd] in Hs, Ht, He.
    destruct (IH (<[path := status]> result) (es ++ option_list entry) w1)
      as (result' & new & w' & t & -> & Htr & Hin & Hout & Hnew).
    exists result', (option_list entry ++ new), w', (t1 ++ t).
    rewrite app_assoc. split; [reflexivity|].
    split; [apply Forall_app; done|].
    split; [|split].
    + intros p Hp. cbn in Hp. apply elem_of_cons in Hp.
      destruct (decide (p ∈ rest.*1)) as [Hr|Hr]; [by apply Hin|].
      destruct Hp as [->|Hp]; [|done].
      rewrite (Hout _ Hr), lookup_insert_eq. eauto.
    + intros p Hp. cbn in Hp. apply not_elem_of_cons in Hp as [Hne Hr].
      rewrite (Hout _ Hr). by rewrite lookup_insert_ne.
    + intros e Hin'. apply elem_of_app in Hin' as [Hin'|Hin'].
      * destruct entry as [e'|]; cbn in Hin'; [|by apply elem_of_nil in Hin'].
        apply list_elem_of_singleton in Hin' as ->.
        exists path. split; [by apply He | cbn; left].
      * destruct (Hnew _ Hin') as (p & Hp & Hr).
        exists p. split; [done | cbn; by right].
Qed.

(** The bootstrap loop: either every blob went up and every file is
    ["created"], or the first failing blob ended the function. *)
Lemma bootstrap_range_spec owner repo files :
  ∀ result es w,
  match bootstrap_range client owner repo files result es w with
  | (Next (result', es'), _, t) =>
      Forall (λ e, loop_call e = true) t
      ∧ length es' = (length es + length files)%nat
      ∧ (∀ p, p ∈ files.*1 → result' !! p = Some "created"%string)
      ∧ (∀ p, p ∉ files.*1 → result' !! p = result !! p)
  | (Return (_, err), _, t) =>
      Forall (λ e, loop_call e = true) t
      ∧ ∃ e, err = Some (wrapError "CreateBlob (init): " e EmptyString)
  | (Panic, _, _) => False
  end.
Proof.
  induction files as [|[path content] rest IH]; intros result es w.
  - cbn. repeat split; [constructor | lia | set_solver].
  - cbn [bootstrap_range]. rewrite bind_call.
    destruct (Git_CreateBlob client owner repo (newBlob content) w)
      as [[blob|e] w1]; cbn [fst snd].
    + specialize (IH (<[path := "created"%string]> result)
                    (es ++ [newTreeEntry path blob]) w1).
      destruct (bootstrap_range _ _ _ _ _ _ _) as [[[[r es']|[r err]|] w2] t].
      * destruct IH as (Ht & Hlen & Hin & Hout).
        split; [by constructor|]. split.
        { rewrite Hlen, length_app. cbn. lia. }
        split.
        -- intros p Hp. cbn in Hp. apply elem_of_cons in Hp.
           destruct (decide (p ∈ rest.*1)) as [Hr|Hr]; [by apply Hin|].
           destruct Hp as [->|Hp]; [|done].
           by rewrite (Hout _ Hr), lookup_insert_eq.
        -- intros p Hp. cbn in Hp. apply not_elem_of_cons in Hp as [Hne Hr].
           rewrite (Hout _ Hr). by rewrite lookup_insert_ne.
      * destruct IH as (Ht & Herr). split; [by constructor | done].
      * done.
    + cbn. split; [repeat constructor | eauto].
Qed.

(** The bootstrap loop over [pre ++ post] is the loop over [post]
    resumed where the loop over [pre] fell through. *)
Lemma bootstrap_range_app owner repo pre post :
  ∀ result es w result1 es1 w1 t1,
  bootstrap_range client owner repo pre result es w
    = (Next (result1, es1), w1, t1) →
  bootstrap_range client owner repo (pre ++ post) result es w =
  match bootstrap_range client owner repo post result1 es1 w1 with
  | (f, w2, t2) => (f, w2, t1 ++ t2)
  end.
Proof.
  induction pre as [|[path content] rest IH];
    intros result es w result1 es1 w1 t1.
  - cbn. intros [= <- <- <- <-].
    destruct (bootstrap_range _ _ _ _ _ _ _) as [[f w2] t2]; reflexivity.
  - cbn [bootstrap_range app]. rewrite !bind_call.
    destruct (Git_CreateBlob client owner repo (newBlob content) w)
      as [[blob|e] w0]; cbn [fst snd]; [|discriminate].
    destruct (bootstrap_range client owner repo rest _ _ w0)
      as [[f w2] t2] eqn:Hrest.
    intros [= -> -> <-].
    rewrite (IH _ _ _ _ _ _ _ Hrest).
    destruct (bootstrap_range client owner repo post _ _ _) as [[f' w3] t3].
    reflexivity.
Qed.

End Loops.

(** ** The repository ensurer *)

Section Ensurer.
Context {W : Type}.
Variable client : Client W.

(** The repository is found: nothing is created. *)
Lemma createRepo_found owner repoName w resp w1 :
  Repositories_Get client owner repoName w = ((resp, None), w1) →
  createRepo client owner repoName w
  = (Returned None, w1,
     [ReposGet owner repoName;
      LogPrintln ("Repo already exists: " +:+
                  "https://github.com/" +:+ owner +:+ "/" +:+ repoName)]).
Proof.
  intros Hget. unfold createRepo, run, createRepo_body.
  by rewrite bind_call, Hget.
Qed.

(** The lookup fails with a response other than 404: the error is handed
    back and nothing is created. *)
Lemma createRepo_lookup_failed owner repoName w resp err w1 :
  Repositories_Get client owner repoName w = ((Some resp, Some err), w1) →
  StatusCode resp ≠ 404 →
  createRepo client owner repoName w
  = (Returned (Some (wrapError "Error checking if repo exists: " err EmptyString)),
     w1, [ReposGet owner repoName]).
Proof.
  intros Hget Hne. unfold createRepo, run, createRepo_body.
  rewrite bind_call, Hget; cbn [fst snd].
  by rewrite bool_decide_eq_false_2.
Qed.

(** The lookup fails without a response: the creation is attempted. *)
Lemma createRepo_lookup_lost owner repoName w err w1 :
  Repositories_Get client owner repoName w = ((None, Some err), w1) →
  ReposCreate EmptyString (requestedRepository repoName)
    ∈ (createRepo client owner repoName w).2.
Proof.
  intros Hget. unfold createRepo, run, createRepo_body.
  rewrite bind_call, Hget; cbn [fst snd]. rewrite bind_call.
  fold (requestedRepository repoName).
  destruct (Repositories_Create client EmptyString
              (requestedRepository repoName) w1) as [[created|e] w2];
    cbn; set_solver.
Qed.

End Ensurer.

(** C10. When the lookup answers 404, [createRepo] calls
    Repositories.Create with the empty organization and the fixed
    request (the given name, public, auto-initialized, the fixed
    description); [owner] appears in the lookup only, never in the
    creation call. *)
Theorem createRepo_creates_under_token_account
    {W} (client : Client W) (owner repoName : string) (w w1 : W)
    (resp : Response) (err : error) :
  Repositories_Get client owner repoName w = ((Some resp, Some err), w1) →
  StatusCode resp = 404 →
  createRepo client owner repoName w =
    match Repositories_Create client EmptyString (requestedRepository repoName) w1 with
    | (inl createdRepo, w2) =>
        (Returned None, w2,
         [ReposGet owner repoName;
          ReposCreate EmptyString {| Repository_Name := Some repoName;
                            Repository_Description :=
                              Some "Auto-created with Go script"%string;
                            Repository_Private := Some false;
                            Repository_AutoInit := Some true;
                            Repository_HTMLURL := None |};
          LogPrintln ("Repo created: " +:+ Repository_GetHTMLURL createdRepo)])
    | (inr e, w2) =>
        (Returned (Some (wrapError "Error creating repo: " e EmptyString)), w2,
         [ReposGet owner repoName;
          ReposCreate EmptyString {| Repository_Name := Some repoName;
                            Repository_Description :=
                              Some "Auto-created with Go script"%string;
                            Repository_Private := Some false;
                            Repository_AutoInit := Some true;
                            Repository_HTMLURL := None |}])
    end.
Proof.
  intros Hget H404.
  unfold createRepo, run, createRepo_body.
  rewrite bind_call, Hget; cbn [fst snd].
  rewrite H404, bool_decide_eq_true_2 by reflexivity. cbn [negb].
  rewrite bind_call. fold (requestedRepository repoName).
  destruct (Repositories_Create client EmptyString (requestedRepository repoName) w1)
    as [[createdRepo|e] w2]; reflexivity.
Qed.

Lemma createRepo_creates_under_token_account_witness :
  createRepo Fake.client "Santosh-etailify" "gitapis10" Fake.nothing =
    (Returned None,
     Fake.unborn,
     [ReposGet "Santosh-etailify" "gitapis10";
      ReposCreate EmptyString (requestedRepository "gitapis10");
      LogPrintln "Repo created: https://git.example/gitapis10"]).
Proof.
  rewrite (createRepo_creates_under_token_account Fake.client
             "Santosh-etailify" "gitapis10" Fake.nothing Fake.nothing
             Fake.notFound (ErrorResponse 404));
    [vm_compute; reflexivity | vm_compute; reflexivity | reflexivity].
Defined.

(** C8, at a lookup that fails without a response. The repository
    exists, the lookup is lost on the way ([resp] is nil, [err] is not):
    [createRepo] goes on to Repositories.Create and returns the error of
    the creation, not that of the lookup. *)
Theorem createRepo_creates_after_lost_lookup :
  Repositories_Get Fake.client "o" "r" (Fake.with_outage 1 Fake.unborn)
    = ((None, Some Fake.timeout), Fake.unborn)
  ∧ createRepo Fake.client "o" "r" (Fake.with_outage 1 Fake.unborn)
    = (Returned (Some (wrapError "Error creating repo: " (ErrorResponse 422) EmptyString)),
       Fake.unborn,
       [ReposGet "o" "r"; ReposCreate EmptyString (requestedRepository "r")]).
Proof. split; vm_compute; reflexivity. Qed.

(** ** The bootstrap path *)

Section Keys.

Lemma ranges_over_keys (files : gmap string string) order path :
  ranges_over files order → path ∈ order.*1 ↔ path ∈ dom files.
Proof.
  unfold ranges_over. intros ->.
  rewrite elem_of_dom, list_elem_of_fmap. split.
  - intros [[p c] [-> Hin]]. apply elem_of_map_to_list in Hin. eauto.
  - intros [c Hc]. exists (path, c). split; [done|].
    by apply elem_of_map_to_list.
Qed.

Lemma ranges_over_NoDup (files : gmap string string) order :
  ranges_over files order → NoDup order.*1.
Proof.
  unfold ranges_over. intros ->. apply NoDup_fst_map_to_list.
Qed.

Lemma loop_call_quiet (t : list Event) :
  Forall (λ e, loop_call e = true) t →
  Forall (λ e, mutates_history e = false) t.
Proof.
  intros H. eapply Forall_impl; [exact H|]. intros []; cbn; congruence.
Qed.

End Keys.

(** C6. In the bootstrap path, when the blob of [path] is refused after
    the blobs of the paths before it went up, [upsert] returns at once
    with a non-nil error: the failing CreateBlob is its last call,
    [path] is ["error"], the earlier paths are ["created"], the later
    ones have no entry. *)
Theorem bootstrap_blob_failure_aborts
    {W} (client : Client W) (owner repo branch commitMessage : string)
    (files : gmap string string) (pre post : list (string * string))
    (path content : string) (w w1 w2 w3 : W) (e0 err : error)
    (result0 : gmap string string) (entries : list TreeEntry)
    (t2 : list Event) :
  ranges_over files (pre ++ (path, content) :: post) →
  Git_GetRef client owner repo ("refs/heads/" +:+ branch) w = (inr e0, w1) →
  branch_missing e0 = true →
  bootstrap_range client owner repo pre ∅ [] w1
    = (Next (result0, entries), w2, t2) →
  Git_CreateBlob client owner repo (newBlob content) w2 = (inr err, w3) →
  ∃ result t,
    upsertMultipleFilesSafe client owner repo branch
      (pre ++ (path, content) :: post) commitMessage w
    = (Returned (result, Some (wrapError "CreateBlob (init): " err EmptyString)), w3,
       t ++ [CreateBlob owner repo (newBlob content)])
    ∧ result !! path = Some "error"%string
    ∧ (∀ p, p ∈ pre.*1 → result !! p = Some "created"%string)
    ∧ (∀ p, p ∈ post.*1 → result !! p = None).
Proof.
  intros Hfiles Hget Hmiss Hpre Hblob.
  apply ranges_over_NoDup in Hfiles.
  rewrite fmap_app, fmap_cons in Hfiles. cbn [fst] in Hfiles.
  apply NoDup_app in Hfiles as (_ & Hdisj & Hrest).
  apply NoDup_cons in Hrest as [Hpost _].
  pose proof (bootstrap_range_spec client owner repo pre ∅ [] w1) as Hspec.
  rewrite Hpre in Hspec. destruct Hspec as (_ & _ & Hin & Hout).
  exists (<[path := "error"%string]> (<[path := "created"%string]> result0)),
    (GetRef owner repo ("refs/heads/" +:+ branch)
     :: LogPrintln
          "Branch doesn't exist — repo may be empty. Creating initial commit..."
     :: t2).
  split; [|split; [|split]].
  - unfold upsertMultipleFilesSafe, run, upsertMultipleFilesSafe_body.
    rewrite bind_call, Hget; cbn [fst snd]. rewrite Hmiss.
    unfold bootstrap. rewrite bind_emit. unfold bind at 1.
    rewrite (bootstrap_range_app client owner repo pre _ _ _ _ _ _ _ _ Hpre).
    cbn [bootstrap_range]. rewrite bind_call, Hblob. reflexivity.
  - apply lookup_insert_eq.
  - intros p Hp.
    assert (p ≠ path) by (intros ->; eapply Hdisj; [done | left]).
    rewrite !lookup_insert_ne by done. by apply Hin.
  - intros p Hp.
    assert (p ≠ path) by (intros ->; done).
    rewrite !lookup_insert_ne by done.
    rewrite Hout; [apply lookup_empty|].
    intros Hp'. eapply Hdisj; [done | by right].
Qed.

Lemma bootstrap_blob_failure_aborts_witness :
  ∃ result t,
    upsertMultipleFilesSafe Fake.client "o" "r" "main"
      ([("c", "3")]%string ++ ("a", "1")%string :: [("b", "2")]%string) "msg"
      (Fake.with_quota 1 Fake.unborn)
    = (Returned (result,
         Some (wrapError "CreateBlob (init): " (ErrorResponse 403) EmptyString)),
       Fake.mkHost true None ∅ ∅ {[ "blob0" := "3" ]}%string 1 0 0 None,
       t ++ [CreateBlob "o" "r" (newBlob "1")])
    ∧ result !! "a"%string = Some "error"%string
    ∧ (∀ p, p ∈ [("c", "3")%string].*1 → result !! p = Some "created"%string)
    ∧ (∀ p, p ∈ [("b", "2")%string].*1 → result !! p = None).
Proof.
  eapply (bootstrap_blob_failure_aborts Fake.client "o" "r" "main" "msg"
            (list_to_map [("a", "1"); ("b", "2"); ("c", "3")]%string)).
  - unfold ranges_over. vm_compute. reflexivity.
  - vm_compute. reflexivity.
  - reflexivity.
  - vm_compute. reflexivity.
  - vm_compute. reflexivity.
Defined.

(** ** Commits *)

Section Commits.
Context {W : Type}.
Variable client : Client W.

Lemma loop_call_not_commit (t : list Event) o r c :
  Forall (λ e, loop_call e = true) t → CreateCommit o r c ∉ t.
Proof.
  intros H Hin. rewrite Forall_forall in H.
  specialize (H _ Hin). discriminate.
Qed.

(** The only commit the bootstrap path sends is the parentless
    ["Initial commit"]. *)
Lemma bootstrap_commit owner repo branch files result w o r c :
  CreateCommit o r c ∈ (bootstrap client owner repo branch files result w).2 →
  Commit_Message c = Some "Initial commit"%string ∧ Commit_Parents c = [].
Proof.
  unfold bootstrap. rewrite bind_emit. unfold bind at 1.
  pose proof (bootstrap_range_spec client owner repo files result [] w) as Hspec.
  destruct (bootstrap_range client owner repo files result [] w)
    as [[[[res es]|[res err]|] w1] t1]; [| |done].
  - destruct Hspec as (Ht & _).
    pose proof (loop_call_not_commit t1 o r c Ht) as Hno.
    unfold bind, call, emit, return_.
    repeat case_match; simplify_eq; cbn [snd];
      rewrite ?elem_of_cons, ?elem_of_app, ?elem_of_cons, ?elem_of_nil;
      intros H; destruct_or?; simplify_eq; try done.
    all: split; reflexivity.
  - destruct Hspec as (Ht & _).
    pose proof (loop_call_not_commit t1 o r c Ht) as Hno.
    cbn [snd]. rewrite elem_of_cons. intros [H|H]; [discriminate | done].
Qed.

(** The only commit the update path sends carries the caller's
    message and the single parent [originalHeadSHA]. *)
Lemma commit_update_commit owner repo branch commitMessage ref
    originalHeadSHA baseTreeSHA result es w o r c :
  CreateCommit o r c ∈
    (commit_update client owner repo branch commitMessage ref
       originalHeadSHA baseTreeSHA result es w).2 →
  Commit_Message c = Some commitMessage
  ∧ Commit_Parents c = [parentOf originalHeadSHA].
Proof.
  unfold commit_update, bind, call, emit, return_, panic.
  repeat case_match; simplify_eq; cbn [snd];
    rewrite ?elem_of_cons, ?elem_of_app, ?elem_of_cons, ?elem_of_nil;
    intros H; destruct_or?; simplify_eq; try done.
  all: split; reflexivity.
Qed.

Lemma update_commit owner repo branch commitMessage files ref result w o r c :
  CreateCommit o r c ∈
    (update client owner repo branch commitMessage files ref result w).2 →
  Commit_Message c = Some commitMessage
  ∧ Commit_Parents c = [parentOf (GitObject_GetSHA (Reference_Object ref))].
Proof.
  unfold update. rewrite bind_call.
  destruct (Repositories_GetCommit client owner repo
              (GitObject_GetSHA (Reference_Object ref)) w)
    as [[[baseCommit resp] err] w1]; cbn [fst snd].
  destruct err as [err|].
  - destruct resp as [resp|]; unfold bind, call, return_, panic;
      repeat case_match; simplify_eq; cbn [snd app];
      rewrite ?elem_of_cons, ?elem_of_nil;
      intros H; destruct_or?; simplify_eq; done.
  - destruct (baseCommit ≫= RepositoryCommit_Commit) as [commit|].
    + unfold bind at 1.
      destruct (update_range_spec client owner repo branch files result [] w1)
        as (result' & new & w2 & t & -> & Ht & _).
      pose proof (loop_call_not_commit t o r c Ht) as Hno.
      pose proof (commit_update_commit owner repo branch commitMessage ref
                    (GitObject_GetSHA (Reference_Object ref))
                    (Tree_GetSHA (Commit_Tree commit)) result' ([] ++ new)
                    w2 o r c) as Hc.
      destruct (commit_update _ _ _ _ _ _ _ _ _ _ _) as [[f w3] t3].
      cbn [snd] in *. rewrite elem_of_cons, elem_of_app.
      intros H; destruct_or?; simplify_eq; [done | by apply Hc].
    + unfold return_. cbn [snd]. rewrite elem_of_cons, elem_of_nil.
      intros H; destruct_or?; simplify_eq; done.
Qed.

End Commits.

(** Whatever commit a run sends has the message and the parents of its
    path. *)
Lemma commit_shape
    {W} (client : Client W) (owner repo branch : string)
    (files : list (string * string)) (commitMessage : string) (w : W)
    (o r : string) (c : Commit) :
  CreateCommit o r c ∈
    (upsertMultipleFilesSafe client owner repo branch files commitMessage w).2 →
  match (Git_GetRef client owner repo ("refs/heads/" +:+ branch) w).1 with
  | inr _ =>
      Commit_Message c = Some "Initial commit"%string ∧ Commit_Parents c = []
  | inl ref =>
      Commit_Message c = Some commitMessage
      ∧ ∃ parent, Commit_Parents c = [parent]
          ∧ Commit_SHA parent = Some (GitObject_GetSHA (Reference_Object ref))
  end.
Proof.
  unfold upsertMultipleFilesSafe, run, upsertMultipleFilesSafe_body.
  rewrite bind_call.
  destruct (Git_GetRef client owner repo ("refs/heads/" +:+ branch) w)
    as [[ref|err] w1]; cbn [fst snd].
  - pose proof (update_commit client owner repo branch commitMessage files
                  ref ∅ w1 o r c) as Hc.
    destruct (update _ _ _ _ _ _ _ _ _) as [[f w2] t].
    intros Hin.
    assert (CreateCommit o r c ∈ t) as Ht.
    { destruct f; cbn [snd] in Hin; apply elem_of_cons in Hin;
        destruct Hin as [Hin|Hin]; done. }
    destruct (Hc Ht) as [Hm Hp]. split; [done|].
    exists (parentOf (GitObject_GetSHA (Reference_Object ref))). done.
  - destruct (branch_missing err).
    + pose proof (bootstrap_commit client owner repo branch files ∅ w1 o r c)
        as Hc.
      destruct (bootstrap _ _ _ _ _ _ _) as [[f w2] t].
      intros Hin. apply Hc.
      destruct f; cbn [snd] in Hin; apply elem_of_cons in Hin;
        destruct Hin as [Hin|Hin]; done.
    + unfold return_. cbn [snd]. rewrite elem_of_cons, elem_of_nil.
      intros H; destruct_or?; simplify_eq; done.
Qed.

Lemma commits_loop (t : list Event) :
  Forall (λ e, loop_call e = true) t → commits t = [].
Proof.
  induction 1 as [|e t He _ IH]; [reflexivity|].
  unfold commits in *. cbn. destruct e; cbn in *; congruence.
Qed.

(** C7. The commit of each path is sent, once, and is the only kind of
    commit a run sends. Whatever commit appears in a run has, on the
    bootstrap path (the first GetRef failed), the message "Initial
    commit" and no parent, and on the update path (the first GetRef
    resolved [ref]) the caller's [commitMessage] and exactly one parent,
    whose SHA is [originalHeadSHA]. On the bootstrap path, once every
    blob went up and the tree was created, the run sends exactly one
    commit: "Initial commit" on that tree, without parents. On the
    update path, once the loop produced entries, the recheck found the
    same SHA and the tree was created, the run sends exactly one
    commit: [commitMessage] on that tree with the single parent
    [originalHeadSHA]. *)
Theorem commit_message_and_parents
    {W} (client : Client W) (owner repo branch : string)
    (files : list (string * string)) (commitMessage : string) (w : W) :
  (∀ o r c,
     CreateCommit o r c ∈
       (upsertMultipleFilesSafe client owner repo branch files
          commitMessage w).2 →
     match (Git_GetRef client owner repo ("refs/heads/" +:+ branch) w).1 with
     | inr _ =>
         Commit_Message c = Some "Initial commit"%string
         ∧ Commit_Parents c = []
     | inl ref =>
         Commit_Message c = Some commitMessage
         ∧ ∃ parent, Commit_Parents c = [parent]
             ∧ Commit_SHA parent
               = Some (GitObject_GetSHA (Reference_Object ref))
     end)
  ∧ (∀ e w1 result entries w2 t2 tree w3,
       Git_GetRef client owner repo ("refs/heads/" +:+ branch) w
         = (inr e, w1) →
       branch_missing e = true →
       bootstrap_range client owner repo files ∅ [] w1
         = (Next (result, entries), w2, t2) →
       Git_CreateTree client owner repo EmptyString entries w2
         = (inl tree, w3) →
       commits (upsertMultipleFilesSafe client owner repo branch files
                  commitMessage w).2
       = [CreateCommit owner repo
            {| Commit_SHA := None;
               Commit_Message := Some "Initial commit"%string;
               Commit_Tree := Some tree;
               Commit_Parents := [];
               Commit_HTMLURL := None |}])
  ∧ (∀ ref w1 baseCommit resp commit w2 result entries w3 t3
       refCheck w4 newTree w5,
       Git_GetRef client owner repo ("refs/heads/" +:+ branch) w
         = (inl ref, w1) →
       Repositories_GetCommit client owner repo
         (GitObject_GetSHA (Reference_Object ref)) w1
         = ((Some baseCommit, resp, None), w2) →
       RepositoryCommit_Commit baseCommit = Some commit →
       update_range client owner repo branch files ∅ [] w2
         = (Next (result, entries), w3, t3) →
       entries ≠ [] →
       Git_GetRef client owner repo ("refs/heads/" +:+ branch) w3
         = (inl refCheck, w4) →
       GitObject_GetSHA (Reference_Object refCheck)
         = GitObject_GetSHA (Reference_Object ref) →
       Git_CreateTree client owner repo (Tree_GetSHA (Commit_Tree commit))
         entries w4 = (inl newTree, w5) →
       commits (upsertMultipleFilesSafe client owner repo branch files
                  commitMessage w).2
       = [CreateCommit owner repo
            {| Commit_SHA := None;
               Commit_Message := Some commitMessage;
               Commit_Tree := Some newTree;
               Commit_Parents :=
                 [{| Commit_SHA :=
                       Some (GitObject_GetSHA (Reference_Object ref));
                     Commit_Message := None;
                     Commit_Tree := None;
                     Commit_Parents := [];
                     Commit_HTMLURL := None |}];
               Commit_HTMLURL := None |}]).
Proof.
  split; [intros o r c; apply commit_shape|]. split.
  - intros e w1 result entries w2 t2 tree w3 Hget Hmiss Hloop Htree.
    pose proof (bootstrap_range_spec client owner repo files ∅ [] w1) as Hs.
    rewrite Hloop in Hs. destruct Hs as (Ht & _).
    apply commits_loop in Ht.
    unfold upsertMultipleFilesSafe, run, upsertMultipleFilesSafe_body.
    rewrite bind_call, Hget; cbn [fst snd]. rewrite Hmiss.
    unfold bootstrap. rewrite bind_emit. unfold bind at 1. rewrite Hloop.
    rewrite bind_call, Htree; cbn [fst snd]. rewrite bind_call.
    destruct (Git_CreateCommit client owner repo _ w3)
      as [[newCommit|err] w4]; cbn [fst snd].
    + rewrite bind_call.
      destruct (Git_CreateRef client owner repo _ w4) as [[err|] w5];
        cbn [fst snd]; unfold commits in *; cbn;
        rewrite List.filter_app, Ht; reflexivity.
    + unfold commits in *. cbn. rewrite List.filter_app, Ht. reflexivity.
  - intros ref w1 baseCommit resp commit w2 result entries w3 t3
      refCheck w4 newTree w5 Hget Hcommit Hsome Hloop Hne Hcheck Hsha Htree.
    destruct (update_range_spec client owner repo branch files ∅ [] w2)
      as (result' & new & w' & t & Heq & Ht & _).
    rewrite Hloop in Heq. injection Heq as _ _ _ <-.
    apply commits_loop in Ht.
    unfold upsertMultipleFilesSafe, run, upsertMultipleFilesSafe_body.
    rewrite bind_call, Hget; cbn [fst snd].
    unfold update. rewrite bind_call, Hcommit; cbn [fst snd mbind option_bind].
    rewrite Hsome. unfold bind at 1. rewrite Hloop.
    unfold commit_update. destruct entries as [|entry rest]; [done|].
    rewrite bind_call, Hcheck; cbn [fst snd].
    rewrite bool_decide_eq_true_2 by done.
    rewrite bind_call, Htree; cbn [fst snd]. rewrite bind_call.
    destruct (Git_CreateCommit client owner repo _ w5)
      as [[created|err] w6]; cbn [fst snd].
    + destruct (Reference_Object ref) as [object|];
        [destruct (Reference_Ref ref) as [name|]|];
        cbv zeta; cbn [Reference_Ref].
      * rewrite bind_call.
        destruct (Git_UpdateRef client owner repo _ false w6)
          as [[err|] w7]; cbn [fst snd]; unfold commits in *; cbn;
          rewrite List.filter_app, Ht; reflexivity.
      * rewrite bind_emit.
        unfold commits in *. cbn. rewrite List.filter_app, Ht. reflexivity.
      * unfold commits in *. cbn. rewrite List.filter_app, Ht. reflexivity.
    + unfold commits in *. cbn. rewrite List.filter_app, Ht. reflexivity.
Qed.

Lemma commit_message_and_parents_witness :
  (∃ c, CreateCommit "o" "r" c ∈
          (upsertMultipleFilesSafe Fake.client "o" "r" "main"
             [("a", "2")]%string "Upsert files from Go script"
             (Fake.branch_with {[ "a" := "1" ]}%string)).2
     ∧ Commit_Message c = Some "Upsert files from Go script"%string
     ∧ ∃ parent, Commit_Parents c = [parent]
         ∧ Commit_SHA parent = Some "c0"%string)
  ∧ commits (upsertMultipleFilesSafe Fake.client "o" "r" "main"
               [("a", "2")]%string "Upsert files from Go script"
               Fake.unborn).2
    = [CreateCommit "o" "r"
         {| Commit_SHA := None;
            Commit_Message := Some "Initial commit"%string;
            Commit_Tree :=
              Some (mkTree (Some "tree1"%string)
                      [newTreeEntry "a" (mkBlob None None (Some "blob0"%string))]);
            Commit_Parents := [];
            Commit_HTMLURL := None |}]
  ∧ commits (upsertMultipleFilesSafe Fake.client "o" "r" "main"
               [("a", "2")]%string "Upsert files from Go script"
               (Fake.branch_with {[ "a" := "1" ]}%string)).2
    = [CreateCommit "o" "r"
         {| Commit_SHA := None;
            Commit_Message := Some "Upsert files from Go script"%string;
            Commit_Tree :=
              Some (mkTree (Some "tree1"%string)
                      [newTreeEntry "a" (mkBlob None None (Some "blob0"%string))]);
            Commit_Parents :=
              [{| Commit_SHA := Some "c0"%string;
                  Commit_Message := None;
                  Commit_Tree := None;
                  Commit_Parents := [];
                  Commit_HTMLURL := None |}];
            Commit_HTMLURL := None |}].
Proof.
  split; [|split].
  - eexists. split.
    + vm_compute. do 6 apply list_elem_of_further. apply list_elem_of_here.
    + refine (proj1 (commit_message_and_parents Fake.client "o" "r" "main"
                       [("a", "2")]%string "Upsert files from Go script"
                       (Fake.branch_with {[ "a" := "1" ]}%string))
                "o" "r" _ _).
      vm_compute. do 6 apply list_elem_of_further. apply list_elem_of_here.
  - eapply (proj1 (proj2 (commit_message_and_parents Fake.client "o" "r" "main"
                            [("a", "2")]%string "Upsert files from Go script"
                            Fake.unborn))).
    + vm_compute. reflexivity.
    + reflexivity.
    + vm_compute. reflexivity.
    + vm_compute. reflexivity.
  - etransitivity.
    + eapply (proj2 (proj2 (commit_message_and_parents Fake.client "o" "r"
                              "main" [("a", "2")]%string
                              "Upsert files from Go script"
                              (Fake.branch_with {[ "a" := "1" ]}%string)))).
      * vm_compute. reflexivity.
      * vm_compute. reflexivity.
      * reflexivity.
      * vm_compute. reflexivity.
      * discriminate.
      * vm_compute. reflexivity.
      * vm_compute. reflexivity.
      * vm_compute. reflexivity.
    + vm_compute. reflexivity.
Defined.


(** C2. On the update path, once the loop has produced tree entries and
    the branch is resolved again: if the SHA read back differs from
    [originalHeadSHA], [upsert] returns a non-nil error together with
    the [result] the loop computed, the recheck is its last call, and
    none of its calls creates a tree, a commit or moves a ref. *)
Theorem recheck_mismatch_aborts
    {W} (client : Client W) (owner repo branch commitMessage : string)
    (files : list (string * string)) (w w1 w2 w3 w4 : W)
    (ref refCheck : Reference) (baseCommit : RepositoryCommit)
    (resp : option Response) (commit : Commit)
    (result : gmap string string) (entries : list TreeEntry)
    (t3 : list Event) :
  Git_GetRef client owner repo ("refs/heads/" +:+ branch) w = (inl ref, w1) →
  Repositories_GetCommit client owner repo
    (GitObject_GetSHA (Reference_Object ref)) w1
    = ((Some baseCommit, resp, None), w2) →
  RepositoryCommit_Commit baseCommit = Some commit →
  update_range client owner repo branch files ∅ [] w2
    = (Next (result, entries), w3, t3) →
  entries ≠ [] →
  Git_GetRef client owner repo ("refs/heads/" +:+ branch) w3
    = (inl refCheck, w4) →
  GitObject_GetSHA (Reference_Object refCheck)
    ≠ GitObject_GetSHA (Reference_Object ref) →
  ∃ err t,
    upsertMultipleFilesSafe client owner repo branch files commitMessage w
    = (Returned (result, Some err), w4,
       t ++ [GetRef owner repo ("refs/heads/" +:+ branch)])
    ∧ Forall (λ e, mutates_history e = false)
        (t ++ [GetRef owner repo ("refs/heads/" +:+ branch)]).
Proof.
  intros Hget Hcommit Hsome Hloop Hne Hcheck Hsha.
  destruct (update_range_spec client owner repo branch files ∅ [] w2)
    as (result' & new & w' & t & Heq & Ht & _).
  rewrite Hloop in Heq. injection Heq as -> -> -> ->.
  exists (errorString "Branch was updated during operation (SHA mismatch)"),
    (GetRef owner repo ("refs/heads/" +:+ branch)
     :: GetCommit owner repo (GitObject_GetSHA (Reference_Object ref)) :: t).
  split.
  - unfold upsertMultipleFilesSafe, run, upsertMultipleFilesSafe_body.
    rewrite bind_call, Hget; cbn [fst snd].
    unfold update. rewrite bind_call, Hcommit; cbn [fst snd mbind option_bind].
    rewrite Hsome. unfold bind at 1. rewrite Hloop.
    unfold commit_update. cbn [app] in Hne |- *.
    destruct new as [|entry rest]; [done|].
    rewrite bind_call, Hcheck; cbn [fst snd].
    rewrite bool_decide_eq_false_2 by done. reflexivity.
  - cbn [app]. repeat constructor. apply Forall_app. split.
    + by apply loop_call_quiet.
    + repeat constructor.
Qed.

Lemma recheck_mismatch_aborts_witness :
  ∃ err t,
    upsertMultipleFilesSafe Fake.client "o" "r" "main" [("a", "1")]%string
      "msg" (Fake.with_rival "c9" (Fake.branch_with ∅))
    = (Returned ({[ "a" := "created" ]}%string, Some err),
       Fake.mkHost true (Some "c9"%string)
         {[ "c0" := ("t0", []); "c9" := ("t0", ["c0"]) ]}%string
         {[ "t0"%string := ∅ ]} {[ "blob0" := "1" ]}%string 1 99 0 None,
       t ++ [GetRef "o" "r" "refs/heads/main"])
    ∧ Forall (λ e, mutates_history e = false)
        (t ++ [GetRef "o" "r" "refs/heads/main"]).
Proof.
  eapply (recheck_mismatch_aborts Fake.client "o" "r" "main" "msg").
  - vm_compute. reflexivity.
  - vm_compute. reflexivity.
  - reflexivity.
  - vm_compute. reflexivity.
  - discriminate.
  - vm_compute. reflexivity.
  - vm_compute. discriminate.
Defined.

(** C1, at a blob the host refuses. The file is absent on the branch
    (the read answers 404) and the blob upload fails with 403: the
    outcome returned for the path is ["created"], not ["error"], and the
    call succeeds. *)
Theorem update_blob_failure_left_created :
  Repositories_GetContents Fake.client "o" "r" "a.txt" "main"
    (Fake.with_quota 0 (Fake.branch_with ∅))
  = ((None, Some Fake.notFound, Some (ErrorResponse 404)),
     Fake.with_quota 0 (Fake.branch_with ∅))
  ∧ Git_CreateBlob Fake.client "o" "r" (newBlob "hello")
      (Fake.with_quota 0 (Fake.branch_with ∅))
    = (inr (ErrorResponse 403), Fake.with_quota 0 (Fake.branch_with ∅))
  ∧ upsertMultipleFilesSafe Fake.client "o" "r" "main"
      [("a.txt", "hello")]%string "msg"
      (Fake.with_quota 0 (Fake.branch_with ∅))
    = (Returned ({[ "a.txt" := "created" ]}%string, None),
       Fake.with_quota 0 (Fake.branch_with ∅),
       [GetRef "o" "r" "refs/heads/main";
        GetCommit "o" "r" "c0";
        GetContents "o" "r" "a.txt" "main";
        CreateBlob "o" "r" (newBlob "hello");
        FmtPrintln "No changes to commit."]).
Proof. repeat split; vm_compute; reflexivity. Qed.

(** ** Commits and tree entries *)

(** At an empty FileSet on an absent branch the bootstrap loop produces
    no tree entry, and the program still sends a tree with no entries,
    the commit "Initial commit" on it, and the new ref. *)
Lemma bootstrap_commits_without_entries :
  (upsertMultipleFilesSafe Fake.client "o" "r" "main" [] "msg"
     Fake.unborn).1.1 = Returned (∅, None)
  ∧ (upsertMultipleFilesSafe Fake.client "o" "r" "main" [] "msg"
       Fake.unborn).2
    = [GetRef "o" "r" "refs/heads/main";
       LogPrintln
         "Branch doesn't exist — repo may be empty. Creating initial commit...";
       CreateTree "o" "r" EmptyString [];
       CreateCommit "o" "r"
         {| Commit_SHA := None;
            Commit_Message := Some "Initial commit"%string;
            Commit_Tree := Some (mkTree (Some "tree0"%string) []);
            Commit_Parents := [];
            Commit_HTMLURL := None |};
       CreateRef "o" "r"
         {| Reference_Ref := Some "refs/heads/main"%string;
            Reference_URL := None;
            Reference_Object :=
              Some {| GitObject_Type := None;
                      GitObject_SHA := Some "commit1"%string;
                      GitObject_URL := None |} |};
       LogPrintln "Initial commit and branch created."].
Proof. split; vm_compute; reflexivity. Qed.

Section Entries.
Context {W : Type}.
Variable client : Client W.

(** Calls of the loops create no commit. *)
Lemma commit_needs_entries_after (pre t : list Event) :
  Forall (λ e, loop_call e = true) pre →
  commit_needs_entries t → commit_needs_entries (pre ++ t).
Proof.
  intros Hpre Ht o r c Hin. apply elem_of_app in Hin as [Hin|Hin].
  - by apply loop_call_not_commit in Hin.
  - destruct (Ht o r c Hin) as (base & es & Hne & Htree).
    exists base, es. split; [done|]. apply elem_of_app. by right.
Qed.

Lemma commit_needs_entries_cons (e : Event) (t : list Event) :
  (∀ o r c, e ≠ CreateCommit o r c) →
  commit_needs_entries t → commit_needs_entries (e :: t).
Proof.
  intros He Ht o r c Hin. apply elem_of_cons in Hin as [Hin|Hin].
  - by destruct (He o r c).
  - destruct (Ht o r c Hin) as (base & es & Hne & Htree).
    exists base, es. split; [done|]. by apply list_elem_of_further.
Qed.

(** The bootstrap path commits on a tree without entries only when the
    FileSet is empty and the host accepts the empty tree. *)
Lemma bootstrap_needs_entries owner repo branch files result w :
  (files = [] →
   ∃ err w1, Git_CreateTree client owner repo EmptyString [] w = (inr err, w1)) →
  commit_needs_entries (bootstrap client owner repo branch files result w).2.
Proof.
  intros Hrefuse. unfold bootstrap. rewrite bind_emit. unfold bind at 1.
  destruct files as [|file rest].
  - destruct (Hrefuse eq_refl) as (err & w1 & Htree).
    cbn [bootstrap_range ret]. rewrite bind_call, Htree. cbn.
    intros o r c Hin. rewrite !elem_of_cons, elem_of_nil in Hin.
    destruct_or?; simplify_eq; done.
  - pose proof (bootstrap_range_spec client owner repo (file :: rest) result [] w)
      as Hs.
    destruct (bootstrap_range client owner repo (file :: rest) result [] w)
      as [[[[res es]|[res err]|] w1] t]; [| |done].
    + destruct Hs as (Ht & Hlen & _). cbn [length] in Hlen.
      assert (es ≠ []) as Hne by (intros ->; cbn in Hlen; lia).
      intros o r c.
      pose proof (loop_call_not_commit t o r c Ht) as Hno.
      unfold bind, call, emit, return_.
      repeat case_match; simplify_eq; cbn [snd];
        rewrite ?elem_of_cons, ?elem_of_app, ?elem_of_cons, ?elem_of_nil;
        intros H; destruct_or?; simplify_eq; try done.
      all: exists EmptyString, es; split; [done|].
      all: cbn [app]; apply list_elem_of_further, elem_of_app; right;
        apply list_elem_of_here.
    + destruct Hs as (Ht & _). cbn [snd].
      apply commit_needs_entries_cons; [done|].
      intros o r c Hin. by apply loop_call_not_commit in Hin.
Qed.

(** The update path commits only behind its guard on the entries. *)
Lemma commit_update_needs_entries owner repo branch commitMessage ref
    originalHeadSHA baseTreeSHA result entries w :
  commit_needs_entries
    (commit_update client owner repo branch commitMessage ref
       originalHeadSHA baseTreeSHA result entries w).2.
Proof.
  intros o r c. destruct entries as [|entry rest].
  - cbn. rewrite elem_of_cons, elem_of_nil. intros H; destruct_or?; done.
  - intros Hin. exists baseTreeSHA, (entry :: rest). split; [done|].
    revert Hin. unfold commit_update, bind, call, emit, return_, panic.
    repeat case_match; simplify_eq; cbn [snd app];
      rewrite ?elem_of_cons, ?elem_of_nil;
      intros H; destruct_or?; simplify_eq; try done.
    all: right; by left.
Qed.

Lemma update_needs_entries owner repo branch commitMessage files ref result w :
  commit_needs_entries
    (update client owner repo branch commitMessage files ref result w).2.
Proof.
  unfold update. rewrite bind_call.
  destruct (Repositories_GetCommit client owner repo
              (GitObject_GetSHA (Reference_Object ref)) w)
    as [[[baseCommit resp] err] w1]; cbn [fst snd].
  destruct err as [err|].
  - destruct resp as [resp|]; unfold bind, call, return_, panic;
      repeat case_match; simplify_eq; cbn [snd app];
      intros o r c; rewrite ?elem_of_cons, ?elem_of_nil;
      intros H; destruct_or?; simplify_eq; done.
  - destruct (baseCommit ≫= RepositoryCommit_Commit) as [commit|].
    + unfold bind at 1.
      destruct (update_range_spec client owner repo branch files result [] w1)
        as (result' & new & w' & t & -> & Ht & _).
      cbn [app].
      pose proof (commit_update_needs_entries owner repo branch commitMessage
                    ref (GitObject_GetSHA (Reference_Object ref))
                    (Tree_GetSHA (Commit_Tree commit)) result' new w') as Hc.
      destruct (commit_update _ _ _ _ _ _ _ _ _ _ _) as [[f w2] t2].
      cbn [snd] in *. apply commit_needs_entries_cons; [done|].
      by apply commit_needs_entries_after.
    + unfold return_. cbn [snd]. intros o r c.
      rewrite ?elem_of_cons, ?elem_of_nil.
      intros H; destruct_or?; simplify_eq; done.
Qed.

End Entries.

(** C3 as stated fails at the empty FileSet on an absent branch, when
    the host accepts a tree without entries: the bootstrap path has no
    guard on the number of entries and commits on the empty tree. *)
Lemma commit_needs_entries_counterexample :
  ¬ commit_needs_entries
      (upsertMultipleFilesSafe Fake.client "o" "r" "main" [] "msg"
         Fake.unborn).2.
Proof.
  intros H.
  destruct (H "o"%string "r"%string
              {| Commit_SHA := None;
                 Commit_Message := Some "Initial commit"%string;
                 Commit_Tree := Some (mkTree (Some "tree0"%string) []);
                 Commit_Parents := [];
                 Commit_HTMLURL := None |})
    as (base & es & Hne & Hin).
  - rewrite (proj2 bootstrap_commits_without_entries).
    do 3 apply list_elem_of_further. apply list_elem_of_here.
  - rewrite (proj2 bootstrap_commits_without_entries) in Hin.
    rewrite !elem_of_cons, elem_of_nil in Hin. destruct_or?; simplify_eq; done.
Qed.

(** C3, amended. Unless the FileSet is empty, the branch is absent and
    the host accepts a tree without entries, every commit a run of
    [upsert] creates, on either path, comes with a tree call of the run
    that carries at least one TreeEntry. And on the update path, when
    the loop has produced no TreeEntry, the run returns the outcome map
    with a nil error right after the loop and creates no commit. *)
Theorem commit_only_with_entries
    {W} (client : Client W) (owner repo branch : string)
    (files : list (string * string)) (commitMessage : string) (w : W) :
  (files = [] →
   ∀ e w1,
     Git_GetRef client owner repo ("refs/heads/" +:+ branch) w = (inr e, w1) →
     branch_missing e = true →
     ∃ err w2,
       Git_CreateTree client owner repo EmptyString [] w1 = (inr err, w2)) →
  commit_needs_entries
    (upsertMultipleFilesSafe client owner repo branch files commitMessage w).2
  ∧ (∀ ref w1 baseCommit resp commit w2 result w3 t3,
       Git_GetRef client owner repo ("refs/heads/" +:+ branch) w
         = (inl ref, w1) →
       Repositories_GetCommit client owner repo
         (GitObject_GetSHA (Reference_Object ref)) w1
         = ((Some baseCommit, resp, None), w2) →
       RepositoryCommit_Commit baseCommit = Some commit →
       update_range client owner repo branch files ∅ [] w2
         = (Next (result, []), w3, t3) →
       upsertMultipleFilesSafe client owner repo branch files commitMessage w
       = (Returned (result, None), w3,
          GetRef owner repo ("refs/heads/" +:+ branch)
          :: GetCommit owner repo (GitObject_GetSHA (Reference_Object ref))
          :: t3 ++ [FmtPrintln "No changes to commit."])
       ∧ commits
           (upsertMultipleFilesSafe client owner repo branch files
              commitMessage w).2 = []).
Proof.
  intros Hrefuse. split.
  - unfold upsertMultipleFilesSafe, run, upsertMultipleFilesSafe_body.
    rewrite bind_call.
    destruct (Git_GetRef client owner repo ("refs/heads/" +:+ branch) w)
      as [[ref|err] w1] eqn:Hget; cbn [fst snd].
    + pose proof (update_needs_entries client owner repo branch commitMessage
                    files ref ∅ w1) as Hu.
      destruct (update _ _ _ _ _ _ _ _ _) as [[f w2] t].
      cbn [snd] in Hu. destruct f; cbn [snd];
        by apply commit_needs_entries_cons.
    + destruct (branch_missing err) eqn:Hmiss.
      * assert (files = [] →
                ∃ err w2, Git_CreateTree client owner repo EmptyString [] w1
                          = (inr err, w2)) as Hr
          by (intros Hnil; by eapply Hrefuse).
        pose proof (bootstrap_needs_entries client owner repo branch files
                      ∅ w1 Hr) as Hb.
        destruct (bootstrap _ _ _ _ _ _ _) as [[f w2] t].
        cbn [snd] in Hb. destruct f; cbn [snd];
          by apply commit_needs_entries_cons.
      * unfold return_. cbn [snd]. intros o r c.
        rewrite elem_of_cons, elem_of_nil.
        intros H; destruct_or?; simplify_eq; done.
  - intros ref w1 baseCommit resp commit w2 result w3 t3
      Hget Hcommit Hsome Hloop.
    assert (upsertMultipleFilesSafe client owner repo branch files
              commitMessage w
            = (Returned (result, None), w3,
               GetRef owner repo ("refs/heads/" +:+ branch)
               :: GetCommit owner repo (GitObject_GetSHA (Reference_Object ref))
               :: t3 ++ [FmtPrintln "No changes to commit."])) as Hrun.
    { unfold upsertMultipleFilesSafe, run, upsertMultipleFilesSafe_body.
      rewrite bind_call, Hget; cbn [fst snd].
      unfold update.
      rewrite bind_call, Hcommit; cbn [fst snd mbind option_bind].
      rewrite Hsome. unfold bind at 1. rewrite Hloop. reflexivity. }
    split; [exact Hrun|]. rewrite Hrun. cbn [snd].
    destruct (update_range_spec client owner repo branch files ∅ [] w2)
      as (r & new & w' & t & Heq & Ht & _).
    rewrite Hloop in Heq. injection Heq as _ _ _ ->.
    apply commits_loop in Ht. unfold commits in *. cbn.
    rewrite List.filter_app, Ht. reflexivity.
Qed.

Lemma commit_only_with_entries_witness :
  (commit_needs_entries
     (upsertMultipleFilesSafe Fake.client "o" "r" "main"
        [("a", "2")]%string "msg" Fake.unborn).2
   ∧ CreateCommit "o" "r"
       {| Commit_SHA := None;
          Commit_Message := Some "Initial commit"%string;
          Commit_Tree :=
            Some (mkTree (Some "tree1"%string)
                    [newTreeEntry "a" (mkBlob None None (Some "blob0"%string))]);
          Commit_Parents := [];
          Commit_HTMLURL := None |}
     ∈ (upsertMultipleFilesSafe Fake.client "o" "r" "main"
          [("a", "2")]%string "msg" Fake.unborn).2)
  ∧ commit_needs_entries
      (upsertMultipleFilesSafe Fake.client "o" "r" "main" [] "msg"
         (Fake.with_quota 0 Fake.unborn)).2
  ∧ commits
      (upsertMultipleFilesSafe Fake.client "o" "r" "main"
         [("a", "1")]%string "msg"
         (Fake.branch_with {[ "a" := "1" ]}%string)).2 = [].
Proof.
  split; [split|split].
  - apply (commit_only_with_entries Fake.client "o" "r" "main"
             [("a", "2")]%string "msg" Fake.unborn).
    discriminate.
  - vm_compute. do 4 apply list_elem_of_further. apply list_elem_of_here.
  - apply (commit_only_with_entries Fake.client "o" "r" "main"
             [] "msg" (Fake.with_quota 0 Fake.unborn)).
    intros _ e w1 Hget _. vm_compute in Hget. injection Hget as _ <-.
    eexists _, _. vm_compute. reflexivity.
  - eapply (proj2 (commit_only_with_entries Fake.client "o" "r" "main"
                     [("a", "1")]%string "msg"
                     (Fake.branch_with {[ "a" := "1" ]}%string)
                     ltac:(discriminate))).
    + vm_compute. reflexivity.
    + vm_compute. reflexivity.
    + reflexivity.
    + vm_compute. reflexivity.
Defined.

(** C5, at a path that is a directory on the branch. The read answers
    200 with no file and no error; the program uploads the blob and
    puts a tree entry for the path into the new tree while the outcome
    of the path stays ["error"]. *)
Theorem update_directory_written_as_error :
  Repositories_GetContents Fake.client "o" "r" "docs" "main"
    (Fake.branch_with {[ "docs/readme.md" := "hi" ]}%string)
  = ((None, Some Fake.ok, None),
     Fake.branch_with {[ "docs/readme.md" := "hi" ]}%string)
  ∧ (upsertMultipleFilesSafe Fake.client "o" "r" "main"
       [("docs", "hello")]%string "msg"
       (Fake.branch_with {[ "docs/readme.md" := "hi" ]}%string)).1.1
    = Returned ({[ "docs" := "error" ]}%string, None)
  ∧ CreateTree "o" "r" "t0"
      [{| TreeEntry_SHA := Some "blob0"%string;
          TreeEntry_Path := Some "docs"%string;
          TreeEntry_Mode := Some "100644"%string;
          TreeEntry_Type := Some "blob"%string |}]
    ∈ (upsertMultipleFilesSafe Fake.client "o" "r" "main"
         [("docs", "hello")]%string "msg"
         (Fake.branch_with {[ "docs/readme.md" := "hi" ]}%string)).2.
Proof.
  split; [|split]; [vm_compute; reflexivity ..|].
  vm_compute. do 5 apply list_elem_of_further. apply list_elem_of_here.
Qed.

(** ** The outcome map *)

Section Outcome.
Context {W : Type}.
Variable client : Client W.

Lemma run_returned {R} (body : Go W R R) w r w' t :
  run body w = (Returned r, w', t) →
  body w = (Next r, w', t) ∨ body w = (Return r, w', t).
Proof.
  unfold run. destruct (body w) as [[[a|a|] w1] t1]; intros [= <- <- <-]; eauto.
Qed.

(** What follows the update loop hands back the map it was given, and
    none of its errors is one of the early ones. *)
Lemma commit_update_result owner repo branch commitMessage ref
    originalHeadSHA baseTreeSHA result es w f w' t :
  commit_update client owner repo branch commitMessage ref
    originalHeadSHA baseTreeSHA result es w = (f, w', t) →
  match f with
  | Next (r, err) | Return (r, err) => r = result ∧ aborted_early err = false
  | Panic => True
  end.
Proof.
  unfold commit_update, bind, call, emit, return_, panic.
  repeat case_match; intros; simplify_eq; done.
Qed.

Lemma bootstrap_result owner repo branch files w f w' t :
  bootstrap client owner repo branch files ∅ w = (f, w', t) →
  match f with
  | Next (r, err) | Return (r, err) =>
      aborted_early err = false →
      (∀ p, p ∈ files.*1 → r !! p = Some "created"%string)
      ∧ (∀ p, p ∉ files.*1 → r !! p = None)
  | Panic => False
  end.
Proof.
  unfold bootstrap. rewrite bind_emit. unfold bind at 1.
  pose proof (bootstrap_range_spec client owner repo files ∅ [] w) as Hspec.
  destruct (bootstrap_range client owner repo files ∅ [] w)
    as [[[[res es]|[res err]|] w1] t1]; [| |done].
  - destruct Hspec as (_ & _ & Hin & Hout).
    assert (∀ p, p ∉ files.*1 → res !! p = None) as Hnone.
    { intros p Hp. rewrite (Hout _ Hp). apply lookup_empty. }
    unfold bind, call, emit, return_.
    repeat case_match; intros; simplify_eq; done.
  - destruct Hspec as (_ & e & ->). intros [= <- <- <-]. done.
Qed.

Lemma update_result owner repo branch commitMessage files ref w f w' t :
  update client owner repo branch commitMessage files ref ∅ w = (f, w', t) →
  match f with
  | Next (r, err) | Return (r, err) =>
      aborted_early err = false →
      (∀ p, p ∈ files.*1 → ∃ s, r !! p = Some s ∧ s ∈ statuses)
      ∧ (∀ p, p ∉ files.*1 → r !! p = None)
  | Panic => True
  end.
Proof.
  unfold update. rewrite bind_call.
  destruct (Repositories_GetCommit client owner repo
              (GitObject_GetSHA (Reference_Object ref)) w)
    as [[[baseCommit resp] err] w1]; cbn [fst snd].
  destruct err as [err|].
  - destruct resp as [resp|]; unfold bind, call, return_, panic;
      repeat case_match; intros; simplify_eq; done.
  - destruct (baseCommit ≫= RepositoryCommit_Commit) as [commit|].
    + unfold bind at 1.
      destruct (update_range_spec client owner repo branch files ∅ [] w1)
        as (result' & new & w2 & t2 & -> & _ & Hin & Hout & _).
      pose proof (commit_update_result owner repo branch commitMessage ref
                    (GitObject_GetSHA (Reference_Object ref))
                    (Tree_GetSHA (Commit_Tree commit)) result' ([] ++ new)
                    w2) as Hc.
      destruct (commit_update _ _ _ _ _ _ _ _ _ _ _) as [[f3 w3] t3].
      specialize (Hc _ _ _ eq_refl).
      intros [= <- <- <-].
      destruct f3 as [[r err]|[r err]|]; [| |done];
        destruct Hc as [-> _]; intros _; (split; [done|]);
        intros p Hp; rewrite (Hout _ Hp); apply lookup_empty.
    + unfold return_. intros [= <- <- <-]. done.
Qed.

(** Every return of [upsert] other than the early ones carries a map
    with a status for each file ranged over and nothing else. *)
Lemma upsert_result owner repo branch files commitMessage w result err w' t :
  upsertMultipleFilesSafe client owner repo branch files commitMessage w
    = (Returned (result, err), w', t) →
  aborted_early err = false →
  (∀ p, p ∈ files.*1 → ∃ s, result !! p = Some s ∧ s ∈ statuses)
  ∧ (∀ p, p ∉ files.*1 → result !! p = None).
Proof.
  unfold upsertMultipleFilesSafe. intros Hrun Hlate.
  apply run_returned in Hrun. revert Hrun.
  unfold upsertMultipleFilesSafe_body. rewrite bind_call.
  destruct (Git_GetRef client owner repo ("refs/heads/" +:+ branch) w)
    as [[ref|e] w1]; cbn [fst snd].
  - pose proof (update_result owner repo branch commitMessage files ref w1)
      as Hu.
    destruct (update _ _ _ _ _ _ _ _ _) as [[f w2] t2].
    specialize (Hu _ _ _ eq_refl).
    intros [H|H]; injection H as -> _ _; exact (Hu Hlate).
  - destruct (branch_missing e).
    + pose proof (bootstrap_result owner repo branch files w1) as Hb.
      destruct (bootstrap _ _ _ _ _ _ _) as [[f w2] t2].
      specialize (Hb _ _ _ eq_refl).
      intros Hrun.
      assert ((∀ p, p ∈ files.*1 → result !! p = Some "created"%string)
              ∧ (∀ p, p ∉ files.*1 → result !! p = None)) as [Hin Hout]
        by (destruct Hrun as [H|H]; injection H as -> _ _; exact (Hb Hlate)).
      split; [|done]. intros p Hp. exists "created"%string.
      split; [by apply Hin | apply list_elem_of_here].
    + unfold return_. intros [H|H]; [discriminate|].
      injection H as <- <- <- <-. vm_compute in Hlate. discriminate.
Qed.


End Outcome.

(** C4 as stated fails: when the first GetRef fails otherwise than
    with 404 or 409 (here the call gets no response), [upsert] returns
    the empty map next to the error, and the path of the FileSet has no
    status in it. *)
Lemma outcome_total_counterexample :
  ranges_over {[ "a" := "1" ]}%string [("a", "1")]%string
  ∧ (upsertMultipleFilesSafe Fake.client "o" "r" "main"
       [("a", "1")]%string "msg"
       (Fake.with_outage 1 (Fake.branch_with ∅))).1.1
    = Returned (∅, Some (wrapError "GetRef: " Fake.timeout EmptyString))
  ∧ ¬ outcome_total {[ "a" := "1" ]}%string
        (upsertMultipleFilesSafe Fake.client "o" "r" "main"
           [("a", "1")]%string "msg"
           (Fake.with_outage 1 (Fake.branch_with ∅))).1.1.
Proof.
  split; [unfold ranges_over; vm_compute; reflexivity|].
  split; [vm_compute; reflexivity|].
  intros (result & err & Hout & Hall).
  vm_compute in Hout. injection Hout as <- <-.
  destruct (Hall "a"%string) as (status & Ha & _).
  - apply elem_of_dom. exists "1"%string. apply lookup_singleton_eq.
  - vm_compute in Ha. discriminate.
Qed.

(** C4, amended. Whenever [upsert] returns and the error is not one of
    the early aborts (first GetRef failing otherwise than 404/409, base
    commit failing or missing, blob refused during bootstrap), the map
    holds exactly one of the four statuses for every path of the FileSet
    and no entry for any other path. *)
Theorem outcome_total_after_loop
    {W} (client : Client W) (owner repo branch commitMessage : string)
    (files : gmap string string) (order : list (string * string)) (w w' : W)
    (result : gmap string string) (err : option error) (t : list Event) :
  ranges_over files order →
  upsertMultipleFilesSafe client owner repo branch order commitMessage w
    = (Returned (result, err), w', t) →
  aborted_early err = false →
  (∀ path, path ∈ dom files →
     ∃ status, result !! path = Some status ∧ status ∈ statuses)
  ∧ dom result = dom files.
Proof.
  intros Hfiles Hrun Hlate.
  destruct (upsert_result client _ _ _ _ _ _ _ _ _ _ Hrun Hlate) as [Hin Hout].
  assert (∀ path, path ∈ dom files →
            ∃ status, result !! path = Some status ∧ status ∈ statuses) as Hall.
  { intros path Hp. apply Hin. by apply (ranges_over_keys files order). }
  split; [done|].
  apply set_eq. intros path. split.
  - intros Hp. destruct (decide (path ∈ dom files)) as [|Hn]; [done|].
    apply elem_of_dom in Hp as [s Hs].
    rewrite Hout in Hs; [discriminate|].
    intros Hp. apply Hn. by apply (ranges_over_keys files order).
  - intros Hp. destruct (Hall _ Hp) as (s & Hs & _).
    apply elem_of_dom. eauto.
Qed.

Lemma outcome_total_after_loop_witness :
  (∀ path, path ∈ dom ({[ "a" := "1"; "b" := "2" ]} : gmap string string)%string →
     ∃ status,
       ({[ "a" := "skipped"; "b" := "created" ]} : gmap string string)%string
         !! path = Some status
       ∧ status ∈ statuses)
  ∧ dom ({[ "a" := "skipped"; "b" := "created" ]} : gmap string string)%string
    = dom ({[ "a" := "1"; "b" := "2" ]} : gmap string string)%string.
Proof.
  eapply (outcome_total_after_loop Fake.client "o" "r" "main" "msg"
            {[ "a" := "1"; "b" := "2" ]}%string
            [("a", "1"); ("b", "2")]%string
            (Fake.branch_with {[ "a" := "1" ]}%string)).
  - unfold ranges_over. vm_compute. reflexivity.
  - vm_compute. reflexivity.
  - reflexivity.
Defined.

(** ** Repeating an upsert *)



(** *** The two calls on the in-memory host *)

Section Runs.
Context {W : Type}.





End Runs.

Section Faithful.
Variables owner repo branch : string.













Lemma overlay_blobs h h' base es :
  (∀ e, e ∈ es →
     Fake.blobs h' !! GetString (TreeEntry_SHA e)
     = Fake.blobs h !! GetString (TreeEntry_SHA e)) →
  Fake.overlay h' base es = Fake.overlay h base es.
Proof.
  revert base. induction es as [|e es IH]; intros base Hb; [done|].
  unfold Fake.overlay in *. cbn [foldl].
  rewrite (Hb e) by apply list_elem_of_here.
  apply IH. intros e' He'. apply Hb. by apply list_elem_of_further.
Qed.





















End Faithful.



(** ** What a run does to the outside *)

Section Events.
Context {W : Type}.
Variable client : Client W.

Lemma update_round_entry_shape owner repo branch path newContent w e :
  (update_round client owner repo branch path newContent w).1.1.2 = Some e →
  ∃ blob, e = newTreeEntry path blob.
Proof.
  unfold update_round.
  repeat case_match; cbn [fst snd]; intros [= <-]; eauto.
Qed.

Lemma update_round_events (P : Event → Prop) owner repo branch path newContent w :
  P (GetContents owner repo path branch) →
  P (CreateBlob owner repo (newBlob newContent)) →
  Forall P (update_round client owner repo branch path newContent w).2.
Proof.
  intros Hread Hblob. unfold update_round.
  repeat case_match; cbn [fst snd]; repeat constructor; done.
Qed.

(** The calls of the update loop, and the entries it appends: one read
    per file, uploads of the files' contents only, entries in the order
    of the files. *)
Lemma update_range_events (P : Event → Prop) owner repo branch files :
  (∀ path content, (path, content) ∈ files →
     P (GetContents owner repo path branch)
     ∧ P (CreateBlob owner repo (newBlob content))) →
  ∀ result es w,
  ∃ result' new w' t,
    update_range client owner repo branch files result es w
      = (Next (result', es ++ new), w', t)
    ∧ Forall P t
    ∧ Forall (entry_of files) new
    ∧ entry_paths new `sublist_of` files.*1
    ∧ reads t = (λ f, GetContents owner repo f.1 branch) <$> files.
Proof.
  induction files as [|[path newContent] rest IH]; intros HP result es w.
  - exists result, [], w, []. cbn. rewrite app_nil_r.
    repeat split; constructor.
  - rewrite update_range_cons.
    destruct (HP path newContent) as [Hread Hblob]; [left|].
    pose proof (update_round_events P owner repo branch path newContent w
                  Hread Hblob) as Ht.
    pose proof (update_round_entry_shape owner repo branch path newContent w)
      as He.
    assert (reads (update_round client owner repo branch path newContent w).2
            = [GetContents owner repo path branch]) as Hr.
    { unfold update_round. repeat case_match; reflexivity. }
    destruct (update_round client owner repo branch path newContent w)
      as [[[status entry] w1] t1]; cbn [fst snd] in Ht, He, Hr.
    destruct (IH (λ p c Hin, HP p c (list_elem_of_further _ _ _ Hin))
                (<[path := status]> result) (es ++ option_list entry) w1)
      as (result' & new & w' & t & -> & Htr & Hnew & Hsub & Hreads).
    exists result', (option_list entry ++ new), w', (t1 ++ t).
    rewrite app_assoc. split; [reflexivity|].
    split; [by apply Forall_app|]. split; [|split].
    + apply Forall_app. split.
      * destruct entry as [e|]; [|constructor].
        destruct (He e eq_refl) as [blob ->].
        repeat constructor. exists path. split; [reflexivity | left].
      * eapply Forall_impl; [exact Hnew|].
        intros e (Hm & Hty & p & Hp & Hin). repeat split; [done..|].
        exists p. split; [done | by right].
    + unfold entry_paths. rewrite fmap_app. cbn [fmap list_fmap fst].
      destruct entry as [e|]; cbn.
      * destruct (He e eq_refl) as [blob ->]. cbn. by apply sublist_skip.
      * by apply sublist_cons.
    + unfold reads in *. rewrite List.filter_app, Hr, Hreads. reflexivity.
Qed.

(** The calls of the bootstrap loop, and the entries it has appended
    when it falls through: one upload and one entry per file. *)
Lemma bootstrap_range_events (P : Event → Prop) owner repo files :
  (∀ path content, (path, content) ∈ files →
     P (CreateBlob owner repo (newBlob content))) →
  ∀ result es w,
  match bootstrap_range client owner repo files result es w with
  | (Next (_, es'), _, t) =>
      Forall P t ∧ history t = []
      ∧ ∃ new, es' = es ++ new ∧ Forall (entry_of files) new
               ∧ entry_paths new = files.*1
  | (_, _, t) => Forall P t ∧ history t = []
  end.
Proof.
  induction files as [|[path content] rest IH]; intros HP result es w.
  - cbn. repeat split; [constructor|]. exists []. rewrite app_nil_r.
    repeat split; constructor.
  - cbn [bootstrap_range]. rewrite bind_call.
    pose proof (HP path content (list_elem_of_here _ _)) as Hblob.
    destruct (Git_CreateBlob client owner repo (newBlob content) w)
      as [[blob|e] w1]; cbn [fst snd].
    + specialize (IH (λ p c Hin, HP p c (list_elem_of_further _ _ _ Hin))
                    (<[path := "created"%string]> result)
                    (es ++ [newTreeEntry path blob]) w1).
      destruct (bootstrap_range _ _ _ _ _ _ _) as [[[[r es']|[r err]|] w2] t].
      * destruct IH as (Ht & Hh & new & -> & Hnew & Hpaths).
        split; [by constructor|]. split; [done|].
        exists (newTreeEntry path blob :: new).
        rewrite <- app_assoc. split; [reflexivity|]. split.
        -- constructor.
           ++ repeat split. exists path. split; [reflexivity | left].
           ++ eapply Forall_impl; [exact Hnew|].
              intros e (Hm & Hty & p & Hp & Hin). repeat split; [done..|].
              exists p. split; [done | by right].
        -- unfold entry_paths in *. cbn. by rewrite Hpaths.
      * destruct IH as [Ht Hh]. split; [by constructor | done].
      * destruct IH as [Ht Hh]. split; [by constructor | done].
    + cbn. split; [repeat constructor; done | reflexivity].
Qed.

Ltac trace_events :=
  repeat first
    [ assumption
    | match goal with
      | |- Forall _ [] => constructor
      | |- Forall _ (_ :: _) => constructor
      | |- Forall _ (_ ++ _) => apply Forall_app; split
      end
    | apply upsert_GetRef | apply upsert_GetCommit
    | apply upsert_CreateTree; assumption | apply upsert_CreateCommit
    | apply upsert_CreateRef; reflexivity | apply upsert_UpdateRef
    | apply upsert_ReadFile | apply upsert_LogPrintln
    | apply upsert_FmtPrintln ].

Lemma bootstrap_events owner repo branch files result w :
  Forall (upsert_event owner repo branch files)
    (bootstrap client owner repo branch files result w).2.
Proof.
  unfold bootstrap. rewrite bind_emit. unfold bind at 1.
  pose proof (bootstrap_range_events (upsert_event owner repo branch files)
                owner repo files
                (λ p c Hin, upsert_CreateBlob owner repo branch files p c Hin)
                result [] w) as Hspec.
  destruct (bootstrap_range client owner repo files result [] w)
    as [[[[res es]|[res err]|] w1] t1].
  - destruct Hspec as (Ht & _ & new & -> & Hnew & Hpaths). cbn [app].
    assert (entry_paths new `sublist_of` files.*1) as Hsub
      by (rewrite Hpaths; reflexivity).
    unfold bind, call, emit, return_.
    repeat case_match; simplify_eq; cbn [snd]; trace_events.
  - destruct Hspec as [Ht _]. cbn [snd]. trace_events.
  - destruct Hspec as [Ht _]. cbn [snd]. trace_events.
Qed.

Lemma commit_update_events owner repo branch commitMessage files ref
    originalHeadSHA baseTreeSHA result es w :
  Forall (entry_of files) es →
  entry_paths es `sublist_of` files.*1 →
  Forall (upsert_event owner repo branch files)
    (commit_update client owner repo branch commitMessage ref
       originalHeadSHA baseTreeSHA result es w).2.
Proof.
  intros Hes Hsub. unfold commit_update, bind, call, emit, return_, panic.
  repeat case_match; simplify_eq; cbn [snd]; trace_events.
Qed.

Lemma update_events owner repo branch commitMessage files ref result w :
  Forall (upsert_event owner repo branch files)
    (update client owner repo branch commitMessage files ref result w).2.
Proof.
  unfold update. rewrite bind_call.
  destruct (Repositories_GetCommit client owner repo
              (GitObject_GetSHA (Reference_Object ref)) w)
    as [[[baseCommit resp] err] w1]; cbn [fst snd].
  destruct err as [err|].
  - destruct resp as [resp|]; unfold bind, call, return_, panic;
      repeat case_match; simplify_eq; cbn [snd app]; trace_events.
  - destruct (baseCommit ≫= RepositoryCommit_Commit) as [commit|].
    + unfold bind at 1.
      destruct (update_range_events (upsert_event owner repo branch files)
                  owner repo branch files
                  (λ p c Hin,
                     conj (upsert_GetContents owner repo branch files p c Hin)
                          (upsert_CreateBlob owner repo branch files p c Hin))
                  result [] w1)
        as (result' & new & w2 & t & -> & Ht & Hnew & Hsub & _).
      pose proof (commit_update_events owner repo branch commitMessage files
                    ref (GitObject_GetSHA (Reference_Object ref))
                    (Tree_GetSHA (Commit_Tree commit)) result' ([] ++ new)
                    w2 Hnew Hsub) as Hc.
      destruct (commit_update _ _ _ _ _ _ _ _ _ _ _) as [[f w3] t3].
      cbn [snd] in *. trace_events.
    + unfold return_. cbn [snd]. trace_events.
Qed.

(** Every entry of the trace of a run is one of the calls listed in
    [upsert_event]. *)
Lemma upsert_events owner repo branch files commitMessage w :
  Forall (upsert_event owner repo branch files)
    (upsertMultipleFilesSafe client owner repo branch files commitMessage w).2.
Proof.
  unfold upsertMultipleFilesSafe, run, upsertMultipleFilesSafe_body.
  rewrite bind_call.
  destruct (Git_GetRef client owner repo ("refs/heads/" +:+ branch) w)
    as [[ref|err] w1]; cbn [fst snd].
  - pose proof (update_events owner repo branch commitMessage files ref ∅ w1)
      as Hu.
    destruct (update _ _ _ _ _ _ _ _ _) as [[f w2] t].
    destruct f; cbn [snd] in *; trace_events.
  - destruct (branch_missing err).
    + pose proof (bootstrap_events owner repo branch files ∅ w1) as Hb.
      destruct (bootstrap _ _ _ _ _ _ _) as [[f w2] t].
      destruct f; cbn [snd] in *; trace_events.
    + unfold return_. cbn [snd]. trace_events.
Qed.

End Events.

(** X1. Every call a run makes names the repository it was given. *)
Theorem upsert_addresses_repository
    {W} (client : Client W) (owner repo branch : string)
    (files : list (string * string)) (commitMessage : string) (w : W) :
  Forall (addressed_to owner repo)
    (upsertMultipleFilesSafe client owner repo branch files commitMessage w).2.
Proof.
  eapply Forall_impl; [apply upsert_events|].
  intros e He. destruct He; cbn; done.
Qed.

(** X2. A run uploads nothing but the contents of the FileSet, each as a
    utf-8 blob. *)
Theorem upsert_uploads_fileset_contents
    {W} (client : Client W) (owner repo branch : string)
    (files : list (string * string)) (commitMessage : string) (w : W) :
  Forall (λ e, match e with
               | CreateBlob _ _ blob =>
                   ∃ path content,
                     (path, content) ∈ files
                     ∧ blob = {| Blob_Content := Some content;
                                 Blob_Encoding := Some "utf-8"%string;
                                 Blob_SHA := None |}
               | _ => True
               end)
    (upsertMultipleFilesSafe client owner repo branch files commitMessage w).2.
Proof.
  eapply Forall_impl; [apply upsert_events|].
  intros e He. destruct He; cbn; eauto.
Qed.

(** X3. Every tree a run sends is made of regular-file blob entries (mode
    100644) for paths of the FileSet, in the order the loop ranged over
    them and no more often than they occur there. *)
Theorem upsert_tree_entries
    {W} (client : Client W) (owner repo branch : string)
    (files : list (string * string)) (commitMessage : string) (w : W) :
  Forall (λ e, match e with
               | CreateTree _ _ _ entries =>
                   Forall (λ entry,
                             TreeEntry_Mode entry = Some "100644"%string
                             ∧ TreeEntry_Type entry = Some "blob"%string
                             ∧ ∃ path, TreeEntry_Path entry = Some path
                                       ∧ path ∈ files.*1) entries
                   ∧ entry_paths entries `sublist_of` files.*1
               | _ => True
               end)
    (upsertMultipleFilesSafe client owner repo branch files commitMessage w).2.
Proof.
  eapply Forall_impl; [apply upsert_events|].
  intros e He. destruct He; cbn; done.
Qed.

(** X4. A run never forces a ref: every UpdateRef is sent with force =
    false, and every CreateRef names refs/heads/<branch>. *)
Theorem upsert_never_forces
    {W} (client : Client W) (owner repo branch : string)
    (files : list (string * string)) (commitMessage : string) (w : W) :
  Forall (λ e, match e with
               | UpdateRef _ _ _ force => force = false
               | CreateRef _ _ ref =>
                   Reference_Ref ref = Some ("refs/heads/" +:+ branch)
               | _ => True
               end)
    (upsertMultipleFilesSafe client owner repo branch files commitMessage w).2.
Proof.
  eapply Forall_impl; [apply upsert_events|].
  intros e He. destruct He; cbn; done.
Qed.

(** ** The order of the history calls *)

Section Protocol.
Context {W : Type}.
Variable client : Client W.

Lemma history_loop (t : list Event) :
  Forall (λ e, loop_call e = true) t → history t = [].
Proof.
  induction 1 as [|e t He _ IH]; [reflexivity|].
  unfold history in *. cbn. destruct e; cbn in *; congruence.
Qed.

Lemma history_app (t1 t2 : list Event) :
  history (t1 ++ t2) = history t1 ++ history t2.
Proof. apply List.filter_app. Qed.

Lemma bootstrap_orderly owner repo branch files result w :
  match bootstrap client owner repo branch files result w with
  | (f, _, t) => orderly f t
  end.
Proof.
  unfold bootstrap. rewrite bind_emit. unfold bind at 1.
  pose proof (bootstrap_range_events client (λ _, True) owner repo files
                (λ _ _ _, I) result [] w) as Hspec.
  destruct (bootstrap_range client owner repo files result [] w)
    as [[[[res es]|[res err]|] w1] t1].
  - destruct Hspec as (_ & Hh & _).
    unfold bind, call, emit, return_.
    repeat case_match; simplify_eq; unfold orderly;
      change (LogPrintln ?l :: ?t) with ([LogPrintln l] ++ t);
      rewrite !history_app, Hh; cbn;
      (split; [reflexivity|]); intros ? [H|H]; simplify_eq; eauto.
  - destruct Hspec as [_ Hh]. unfold orderly.
    change (LogPrintln ?l :: ?t) with ([LogPrintln l] ++ t).
    rewrite !history_app, Hh. cbn. split; [reflexivity | eauto].
  - destruct Hspec as [_ Hh]. unfold orderly.
    change (LogPrintln ?l :: ?t) with ([LogPrintln l] ++ t).
    rewrite !history_app, Hh. cbn. split; [reflexivity | eauto].
Qed.

Lemma commit_update_orderly owner repo branch commitMessage ref
    originalHeadSHA baseTreeSHA result es w :
  match commit_update client owner repo branch commitMessage ref
          originalHeadSHA baseTreeSHA result es w with
  | (f, _, t) => orderly f t
  end.
Proof.
  unfold commit_update, bind, call, emit, return_, panic.
  repeat case_match; simplify_eq; unfold orderly; cbn;
    (split; [reflexivity|]); intros ? [H|H]; simplify_eq; eauto.
Qed.

Lemma update_orderly owner repo branch commitMessage files ref result w :
  match update client owner repo branch commitMessage files ref result w with
  | (f, _, t) => orderly f t
  end.
Proof.
  unfold update. rewrite bind_call.
  destruct (Repositories_GetCommit client owner repo
              (GitObject_GetSHA (Reference_Object ref)) w)
    as [[[baseCommit resp] err] w1]; cbn [fst snd].
  destruct err as [err|].
  - destruct resp as [resp|]; unfold bind, call, return_, panic;
      repeat case_match; simplify_eq; unfold orderly; cbn;
      (split; [reflexivity|]); intros ? [H|H]; simplify_eq; eauto.
  - destruct (baseCommit ≫= RepositoryCommit_Commit) as [commit|].
    + unfold bind at 1.
      destruct (update_range_spec client owner repo branch files result [] w1)
        as (result' & new & w2 & t & -> & Ht & _).
      apply history_loop in Ht.
      pose proof (commit_update_orderly owner repo branch commitMessage ref
                    (GitObject_GetSHA (Reference_Object ref))
                    (Tree_GetSHA (Commit_Tree commit)) result' ([] ++ new)
                    w2) as Hc.
      destruct (commit_update _ _ _ _ _ _ _ _ _ _ _) as [[f w3] t3].
      unfold orderly in *.
      change (GetCommit ?o ?r ?s :: ?l) with ([GetCommit o r s] ++ l).
      rewrite !history_app, Ht. exact Hc.
    + unfold return_, orderly. cbn. split; [reflexivity | eauto].
Qed.

Lemma upsert_orderly owner repo branch files commitMessage w :
  ∃ f, orderly f
         (upsertMultipleFilesSafe client owner repo branch files
            commitMessage w).2
     ∧ ∀ r, (upsertMultipleFilesSafe client owner repo branch files
               commitMessage w).1.1 = Returned r →
            f = Return r ∨ f = Next r.
Proof.
  unfold upsertMultipleFilesSafe, run, upsertMultipleFilesSafe_body.
  rewrite bind_call.
  destruct (Git_GetRef client owner repo ("refs/heads/" +:+ branch) w)
    as [[ref|err] w1]; cbn [fst snd].
  - pose proof (update_orderly owner repo branch commitMessage files ref ∅ w1)
      as Hu.
    destruct (update _ _ _ _ _ _ _ _ _) as [[f w2] t].
    exists f. split.
    + unfold orderly in *. destruct f; cbn [snd];
        change (GetRef ?o ?r ?s :: ?l) with ([GetRef o r s] ++ l);
        rewrite history_app; exact Hu.
    + intros r. destruct f; cbn [fst]; intros [= <-]; eauto.
  - destruct (branch_missing err).
    + pose proof (bootstrap_orderly owner repo branch files ∅ w1) as Hb.
      destruct (bootstrap _ _ _ _ _ _ _) as [[f w2] t].
      exists f. split.
      * unfold orderly in *. destruct f; cbn [snd];
          change (GetRef ?o ?r ?s :: ?l) with ([GetRef o r s] ++ l);
          rewrite history_app; exact Hb.
      * intros r. destruct f; cbn [fst]; intros [= <-]; eauto.
    + unfold return_. cbn [fst snd].
      exists (Return (∅, Some (wrapError "GetRef: " err EmptyString))).
      split; [|intros r [= <-]; eauto].
      split; [reflexivity|]. intros ? [H|H]; simplify_eq.
Qed.

End Protocol.

(** X5. In any run the history calls come in protocol order: at most one
    tree, then at most one commit, then at most one move of the ref,
    none of them without the one before. *)
Theorem upsert_history_in_order
    {W} (client : Client W) (owner repo branch : string)
    (files : list (string * string)) (commitMessage : string) (w : W) :
  in_protocol_order
    (history (upsertMultipleFilesSafe client owner repo branch files
                commitMessage w).2) = true.
Proof.
  destruct (upsert_orderly client owner repo branch files commitMessage w)
    as (f & [Ho _] & _). exact Ho.
Qed.

(** X6. A run that returns a nil error has either made no history call at
    all or has ended its history calls by moving the ref: it never
    reports success with a tree or commit created and the branch left
    where it was. *)
Theorem upsert_success_moved_ref
    {W} (client : Client W) (owner repo branch : string)
    (files : list (string * string)) (commitMessage : string) (w w' : W)
    (result : gmap string string) (t : list Event) :
  upsertMultipleFilesSafe client owner repo branch files commitMessage w
    = (Returned (result, None), w', t) →
  history t = []
  ∨ ∃ e, last (history t) = Some e ∧ moves_ref e = true.
Proof.
  intros Hrun.
  destruct (upsert_orderly client owner repo branch files commitMessage w)
    as (f & [_ Hs] & Hf).
  rewrite Hrun in Hs, Hf. cbn [fst snd] in Hs, Hf.
  apply (Hs result). exact (Hf _ eq_refl).
Qed.

Lemma upsert_success_moved_ref_witness :
  history (upsertMultipleFilesSafe Fake.client "o" "r" "main"
             [("a", "1")]%string "msg" Fake.unborn).2 = []
  ∨ ∃ e, last (history (upsertMultipleFilesSafe Fake.client "o" "r" "main"
                          [("a", "1")]%string "msg" Fake.unborn).2) = Some e
         ∧ moves_ref e = true.
Proof.
  eapply (upsert_success_moved_ref Fake.client "o" "r" "main"
            [("a", "1")]%string "msg" Fake.unborn).
  vm_compute. reflexivity.
Defined.

(** ** Panics *)

Section Panics.
Context {W : Type}.
Variable client : Client W.

Lemma commit_update_panics owner repo branch commitMessage ref
    originalHeadSHA baseTreeSHA result es w w' t :
  commit_update client owner repo branch commitMessage ref
    originalHeadSHA baseTreeSHA result es w = (Panic, w', t) →
  (Reference_Object ref = None ∨ Reference_Ref ref = None)
  ∧ ∃ o r c, CreateCommit o r c ∈ t.
Proof.
  unfold commit_update, bind, call, emit, return_, panic.
  repeat case_match; intros; simplify_eq.
  all: split; [by eauto|]; do 3 eexists; cbn;
    do 2 apply list_elem_of_further; apply list_elem_of_here.
Qed.

Lemma update_panics owner repo branch commitMessage files ref result w w' t :
  update client owner repo branch commitMessage files ref result w
    = (Panic, w', t) →
  (∃ baseCommit err w2,
     Repositories_GetCommit client owner repo
       (GitObject_GetSHA (Reference_Object ref)) w
     = ((baseCommit, None, Some err), w2))
  ∨ ((Reference_Object ref = None ∨ Reference_Ref ref = None)
     ∧ ∃ o r c, CreateCommit o r c ∈ t).
Proof.
  unfold update. rewrite bind_call.
  destruct (Repositories_GetCommit client owner repo
              (GitObject_GetSHA (Reference_Object ref)) w)
    as [[[baseCommit resp] err] w1]; cbn [fst snd].
  destruct err as [err|].
  - destruct resp as [resp|].
    + unfold bind, call, return_. repeat case_match; intros; simplify_eq.
    + intros _. left. eauto.
  - destruct (baseCommit ≫= RepositoryCommit_Commit) as [commit|].
    + unfold bind at 1.
      destruct (update_range_spec client owner repo branch files result [] w1)
        as (result' & new & w2 & t2 & -> & _).
      pose proof (commit_update_panics owner repo branch commitMessage ref
                    (GitObject_GetSHA (Reference_Object ref))
                    (Tree_GetSHA (Commit_Tree commit)) result' ([] ++ new)
                    w2) as Hc.
      destruct (commit_update _ _ _ _ _ _ _ _ _ _ _) as [[f w3] t3].
      intros [= -> <- <-].
      destruct (Hc _ _ eq_refl) as (Hnil & o & r & c & Hin).
      right. split; [done|]. exists o, r, c.
      apply list_elem_of_further, elem_of_app. by right.
    + unfold return_. intros; simplify_eq.
Qed.

End Panics.

(** X7. A run panics in three situations only, all on the update path:
    the base commit lookup fails without a response; or the resolved ref
    carries no object (line 174 writes through it); or the resolved ref
    carries no name (the library's UpdateRef reads it). In the last two
    the panic comes after the commit has been created. The bootstrap
    path never panics. *)
Theorem upsert_panics_only
    {W} (client : Client W) (owner repo branch : string)
    (files : list (string * string)) (commitMessage : string) (w w' : W)
    (t : list Event) :
  upsertMultipleFilesSafe client owner repo branch files commitMessage w
    = (Panicked, w', t) →
  ∃ ref w1,
    Git_GetRef client owner repo ("refs/heads/" +:+ branch) w = (inl ref, w1)
    ∧ ((∃ baseCommit err w2,
          Repositories_GetCommit client owner repo
            (GitObject_GetSHA (Reference_Object ref)) w1
          = ((baseCommit, None, Some err), w2))
       ∨ ((Reference_Object ref = None ∨ Reference_Ref ref = None)
          ∧ ∃ o r c, CreateCommit o r c ∈ t)).
Proof.
  unfold upsertMultipleFilesSafe, run, upsertMultipleFilesSafe_body.
  rewrite bind_call.
  destruct (Git_GetRef client owner repo ("refs/heads/" +:+ branch) w)
    as [[ref|err] w1]; cbn [fst snd].
  - pose proof (update_panics client owner repo branch commitMessage files
                  ref ∅ w1) as Hu.
    destruct (update _ _ _ _ _ _ _ _ _) as [[f w2] t2].
    destruct f; intros [= <- <-].
    exists ref, w1. split; [done|].
    destruct (Hu _ _ eq_refl) as [?|(Hnil & o & r & c & Hin)]; [by left|].
    right. split; [done|]. exists o, r, c. by apply list_elem_of_further.
  - destruct (branch_missing err).
    + pose proof (bootstrap_result client owner repo branch files w1) as Hb.
      destruct (bootstrap _ _ _ _ _ _ _) as [[f w2] t2].
      specialize (Hb _ _ _ eq_refl).
      destruct f; intros [= <- <-]. done.
    + unfold return_. intros; simplify_eq.
Qed.

Lemma upsert_panics_only_witness :
  ∃ ref w1,
    Git_GetRef withoutCommits "o" "r" ("refs/heads/" +:+ "main")
      (Fake.branch_with ∅) = (inl ref, w1)
    ∧ ((∃ baseCommit err w2,
          Repositories_GetCommit withoutCommits "o" "r"
            (GitObject_GetSHA (Reference_Object ref)) w1
          = ((baseCommit, None, Some err), w2))
       ∨ ((Reference_Object ref = None ∨ Reference_Ref ref = None)
          ∧ ∃ o r c, CreateCommit o r c ∈
                       [GetRef "o" "r" "refs/heads/main";
                        GetCommit "o" "r" "c0"])).
Proof.
  apply (upsert_panics_only withoutCommits "o" "r" "main"
           [("a", "1")]%string "msg" (Fake.branch_with ∅) (Fake.branch_with ∅)).
  vm_compute. reflexivity.
Defined.

(** X8. When the lookup of the base commit fails without a response, the
    run panics right after that call: no outcome map and no error are
    returned. *)
Theorem upsert_panics_without_response
    {W} (client : Client W) (owner repo branch : string)
    (files : list (string * string)) (commitMessage : string) (w w1 w2 : W)
    (ref : Reference) (baseCommit : option RepositoryCommit) (err : error) :
  Git_GetRef client owner repo ("refs/heads/" +:+ branch) w = (inl ref, w1) →
  Repositories_GetCommit client owner repo
    (GitObject_GetSHA (Reference_Object ref)) w1
    = ((baseCommit, None, Some err), w2) →
  upsertMultipleFilesSafe client owner repo branch files commitMessage w
  = (Panicked, w2,
     [GetRef owner repo ("refs/heads/" +:+ branch);
      GetCommit owner repo (GitObject_GetSHA (Reference_Object ref))]).
Proof.
  intros Hget Hcommit.
  unfold upsertMultipleFilesSafe, run, upsertMultipleFilesSafe_body.
  rewrite bind_call, Hget; cbn [fst snd].
  unfold update. by rewrite bind_call, Hcommit.
Qed.

Lemma upsert_panics_without_response_witness :
  upsertMultipleFilesSafe withoutCommits "o" "r" "main"
    [("a", "1")]%string "msg" (Fake.branch_with ∅)
  = (Panicked, Fake.branch_with ∅,
     [GetRef "o" "r" "refs/heads/main"; GetCommit "o" "r" "c0"]).
Proof.
  apply (upsert_panics_without_response withoutCommits "o" "r" "main"
           [("a", "1")]%string "msg"
           (Fake.branch_with ∅) (Fake.branch_with ∅) (Fake.branch_with ∅)
           {| Reference_Ref := Some "refs/heads/main"%string;
              Reference_URL := None;
              Reference_Object :=
                Some {| GitObject_Type := Some "commit"%string;
                        GitObject_SHA := Some "c0"%string;
                        GitObject_URL := None |} |}
           None Fake.timeout).
  - vm_compute. reflexivity.
  - vm_compute. reflexivity.
Defined.

(** X9. The error of the first ref lookup selects the path. Unless it is a
    bare API error response with status 404 or 409, the run stops there:
    it returns the empty map with the error wrapped as "GetRef: ..." and
    makes no other call. An error that merely wraps such a response does
    not start the bootstrap. *)
Theorem upsert_ref_lookup_failure
    {W} (client : Client W) (owner repo branch : string)
    (files : list (string * string)) (commitMessage : string) (w w1 : W)
    (e : error) :
  Git_GetRef client owner repo ("refs/heads/" +:+ branch) w = (inr e, w1) →
  (∀ code, e = ErrorResponse code → code ≠ 404 ∧ code ≠ 409) →
  upsertMultipleFilesSafe client owner repo branch files commitMessage w
  = (Returned (∅, Some (wrapError "GetRef: " e EmptyString)), w1,
     [GetRef owner repo ("refs/heads/" +:+ branch)]).
Proof.
  intros Hget Hcode.
  unfold upsertMultipleFilesSafe, run, upsertMultipleFilesSafe_body.
  rewrite bind_call, Hget; cbn [fst snd].
  assert (branch_missing e = false) as ->; [|reflexivity].
  destruct e as [code| |]; [|reflexivity..]. cbn.
  destruct (Hcode code eq_refl) as [H404 H409].
  by rewrite !bool_decide_eq_false_2.
Qed.

Lemma upsert_ref_lookup_failure_witness :
  upsertMultipleFilesSafe
    (mkClient Fake.Host
       (λ _ _ _ h,
          (inr (wrapError "lookup: " (ErrorResponse 404) EmptyString), h))
       Fake.createBlob Fake.createTree Fake.createCommit Fake.createRef
       Fake.updateRef Fake.getCommit Fake.getContents Fake.getRepository
       Fake.createRepository Fake.getContent Fake.readFile)
    "o" "r" "main" [("a", "1")]%string "msg" Fake.unborn
  = (Returned (∅, Some (wrapError "GetRef: "
                          (wrapError "lookup: " (ErrorResponse 404) EmptyString)
                          EmptyString)),
     Fake.unborn, [GetRef "o" "r" ("refs/heads/" +:+ "main")]).
Proof.
  apply upsert_ref_lookup_failure.
  - reflexivity.
  - discriminate.
Defined.

(** ** More on the outcome map *)

Section Within.
Context {W : Type}.
Variable client : Client W.

(** Whatever the bootstrap loop leaves in the map, also when it ends
    the function, was there before or is a status of a file. *)
Lemma bootstrap_range_within owner repo files :
  ∀ result es w,
  match bootstrap_range client owner repo files result es w with
  | (Next (r, _), _, _) | (Return (r, _), _, _) =>
      ∀ p s, r !! p = Some s →
        result !! p = Some s ∨ (p ∈ files.*1 ∧ s ∈ statuses)
  | (Panic, _, _) => True
  end.
Proof.
  induction files as [|[path content] rest IH]; intros result es w.
  - cbn. eauto.
  - cbn [bootstrap_range]. rewrite bind_call.
    destruct (Git_CreateBlob client owner repo (newBlob content) w)
      as [[blob|e] w1]; cbn [fst snd].
    + specialize (IH (<[path := "created"%string]> result)
                    (es ++ [newTreeEntry path blob]) w1).
      destruct (bootstrap_range _ _ _ _ _ _ _) as [[[[r es']|[r err]|] w2] t];
        [| |done].
      all: intros p s Hs; destruct (IH p s Hs) as [Hold|[Hin Hst]];
        [|right; split; [cbn; by right | done]].
      all: destruct (decide (p = path)) as [->|Hne];
        [rewrite lookup_insert_eq in Hold; injection Hold as <-;
         right; split; [cbn; left | apply list_elem_of_here]
        |rewrite lookup_insert_ne in Hold by done; by left].
    + cbn. intros p s Hs.
      destruct (decide (p = path)) as [->|Hne].
      * rewrite lookup_insert_eq in Hs. injection Hs as <-.
        right. split; [left | unfold statuses; set_solver].
      * rewrite !lookup_insert_ne in Hs by done. by left.
Qed.

Lemma bootstrap_within owner repo branch files w :
  match bootstrap client owner repo branch files ∅ w with
  | (Next (r, _), _, _) | (Return (r, _), _, _) =>
      ∀ p s, r !! p = Some s → p ∈ files.*1 ∧ s ∈ statuses
  | (Panic, _, _) => True
  end.
Proof.
  unfold bootstrap. rewrite bind_emit. unfold bind at 1.
  pose proof (bootstrap_range_within owner repo files ∅ [] w) as Hspec.
  destruct (bootstrap_range client owner repo files ∅ [] w)
    as [[[[res es]|[res err]|] w1] t1]; [| |done].
  - assert (∀ p s, res !! p = Some s → p ∈ files.*1 ∧ s ∈ statuses) as Hin.
    { intros p s Hs. destruct (Hspec p s Hs) as [Hold|?]; [|done].
      by rewrite lookup_empty in Hold. }
    unfold bind, call, emit, return_.
    repeat case_match; simplify_eq; done.
  - intros p s Hs. destruct (Hspec p s Hs) as [Hold|?]; [|done].
    by rewrite lookup_empty in Hold.
Qed.

Lemma update_within owner repo branch commitMessage files ref w :
  match update client owner repo branch commitMessage files ref ∅ w with
  | (Next (r, _), _, _) | (Return (r, _), _, _) =>
      ∀ p s, r !! p = Some s → p ∈ files.*1 ∧ s ∈ statuses
  | (Panic, _, _) => True
  end.
Proof.
  unfold update. rewrite bind_call.
  destruct (Repositories_GetCommit client owner repo
              (GitObject_GetSHA (Reference_Object ref)) w)
    as [[[baseCommit resp] err] w1]; cbn [fst snd].
  destruct err as [err|].
  - destruct resp as [resp|]; unfold bind, call, return_, panic;
      repeat case_match; simplify_eq; try done;
      intros p s Hs; by rewrite lookup_empty in Hs.
  - destruct (baseCommit ≫= RepositoryCommit_Commit) as [commit|].
    + unfold bind at 1.
      destruct (update_range_spec client owner repo branch files ∅ [] w1)
        as (result' & new & w2 & t2 & -> & _ & Hin & Hout & _).
      pose proof (commit_update_result client owner repo branch commitMessage
                    ref (GitObject_GetSHA (Reference_Object ref))
                    (Tree_GetSHA (Commit_Tree commit)) result' ([] ++ new)
                    w2) as Hc.
      destruct (commit_update _ _ _ _ _ _ _ _ _ _ _) as [[f w3] t3].
      specialize (Hc _ _ _ eq_refl).
      assert (∀ p s, result' !! p = Some s → p ∈ files.*1 ∧ s ∈ statuses)
        as Hall.
      { intros p s Hs. destruct (decide (p ∈ files.*1)) as [Hp|Hp].
        - destruct (Hin p Hp) as (s' & Hs' & Hst). by simplify_eq.
        - rewrite (Hout p Hp), lookup_empty in Hs. done. }
      destruct f as [[r e]|[r e]|]; [| |done]; by destruct Hc as [-> _].
    + unfold return_. intros p s Hs. by rewrite lookup_empty in Hs.
Qed.

(** The update loop gives no tree entry to a path it marks skipped. *)
Lemma update_range_skipped owner repo branch files :
  NoDup files.*1 →
  ∀ result es w result' new w' t,
  update_range client owner repo branch files result es w
    = (Next (result', es ++ new), w', t) →
  ∀ p, p ∈ files.*1 → result' !! p = Some "skipped"%string →
       p ∉ entry_paths new.
Proof.
  induction files as [|[path newContent] rest IH];
    intros Hnd result es w result' new w' t Hrun p Hp Hskip.
  - by apply elem_of_nil in Hp.
  - cbn in Hnd. apply NoDup_cons in Hnd as [Hfresh Hnd].
    rewrite update_range_cons in Hrun.
    pose proof (update_round_entry_shape client owner repo branch path
                  newContent w) as He.
    assert ((update_round client owner repo branch path newContent w).1.1.2
              ≠ None →
            (update_round client owner repo branch path newContent w).1.1.1
              ≠ "skipped"%string) as Hst.
    { unfold update_round. repeat case_match; cbn [fst snd]; done. }
    destruct (update_round client owner repo branch path newContent w)
      as [[[status entry] w1] t1]; cbn [fst snd] in He, Hst.
    destruct (update_range_events client (λ _, True) owner repo branch rest
                (λ _ _ _, conj I I) (<[path := status]> result)
                (es ++ option_list entry) w1)
      as (r2 & new2 & w2 & t2 & Heq & _ & _ & Hsub & _).
    destruct (update_range_spec client owner repo branch rest
                (<[path := status]> result) (es ++ option_list entry) w1)
      as (r3 & new3 & w3 & t3 & Heq3 & _ & _ & Hout & _).
    rewrite Heq in Heq3. injection Heq3 as <- _ _ _.
    rewrite Heq in Hrun. injection Hrun as <- Hes _ _.
    rewrite <- app_assoc in Hes. apply app_inv_head in Hes as <-.
    unfold entry_paths. rewrite fmap_app. fold (entry_paths new2).
    intros Hin. apply elem_of_app in Hin as [Hin|Hin].
    + destruct entry as [e|]; [|by apply elem_of_nil in Hin].
      destruct (He e eq_refl) as [blob ->]. cbn in Hin.
      apply list_elem_of_singleton in Hin as ->.
      rewrite (Hout _ Hfresh), lookup_insert_eq in Hskip.
      injection Hskip as Hskip. by apply Hst.
    + pose proof (elem_of_sublist _ _ _ Hin Hsub) as Hrest.
      cbn in Hp. apply elem_of_cons in Hp as [->|_]; [done|].
      by eapply (IH Hnd _ _ _ _ _ _ _ Heq).
Qed.

End Within.

(** X10. Whatever map a run returns, early or late, with or without an
    error: its keys are paths of the FileSet and its values are among
    created, updated, skipped, error. *)
Theorem upsert_outcome_within_fileset
    {W} (client : Client W) (owner repo branch : string)
    (files : list (string * string)) (commitMessage : string) (w w' : W)
    (result : gmap string string) (err : option error) (t : list Event)
    (path status : string) :
  upsertMultipleFilesSafe client owner repo branch files commitMessage w
    = (Returned (result, err), w', t) →
  result !! path = Some status →
  path ∈ files.*1 ∧ status ∈ statuses.
Proof.
  unfold upsertMultipleFilesSafe. intros Hrun.
  apply run_returned in Hrun. revert Hrun.
  unfold upsertMultipleFilesSafe_body. rewrite bind_call.
  destruct (Git_GetRef client owner repo ("refs/heads/" +:+ branch) w)
    as [[ref|e] w1]; cbn [fst snd].
  - pose proof (update_within client owner repo branch commitMessage files
                  ref w1) as Hu.
    destruct (update _ _ _ _ _ _ _ _ _) as [[f w2] t2].
    intros [H|H]; injection H as -> _ _; apply Hu.
  - destruct (branch_missing e).
    + pose proof (bootstrap_within client owner repo branch files w1) as Hb.
      destruct (bootstrap _ _ _ _ _ _ _) as [[f w2] t2].
      intros [H|H]; injection H as -> _ _; apply Hb.
    + unfold return_. intros [H|H]; [discriminate|].
      injection H as <- <- <- <-. intros Hs. by rewrite lookup_empty in Hs.
Qed.

Lemma upsert_outcome_within_fileset_witness :
  "a"%string ∈ [("a", "1")]%string.*1 ∧ "created"%string ∈ statuses.
Proof.
  eapply (upsert_outcome_within_fileset Fake.client "o" "r" "main"
            [("a", "1")]%string "msg"
            (Fake.with_rival "c9" (Fake.branch_with ∅))).
  - vm_compute. reflexivity.
  - vm_compute. reflexivity.
Defined.

(** ** The tree that is sent *)

Section TreeCall.
Context {W : Type}.
Variable client : Client W.

Lemma loop_call_not_tree (t : list Event) o r base es :
  Forall (λ e, loop_call e = true) t → CreateTree o r base es ∉ t.
Proof.
  intros H Hin. rewrite Forall_forall in H.
  specialize (H _ Hin). discriminate.
Qed.

Lemma commit_update_tree_call owner repo branch commitMessage ref
    originalHeadSHA baseTreeSHA result entries w o r base es :
  match commit_update client owner repo branch commitMessage ref
          originalHeadSHA baseTreeSHA result entries w with
  | (_, _, t) => CreateTree o r base es ∈ t → es = entries
  end.
Proof.
  unfold commit_update, bind, call, emit, return_, panic.
  repeat case_match; simplify_eq; cbn [app];
    rewrite ?elem_of_cons, ?elem_of_nil;
    intros H; destruct_or?; simplify_eq; done.
Qed.

(** A skipped path has no entry in a tree the update path sends. *)
Lemma update_skipped_not_in_tree owner repo branch commitMessage files ref w
    o r base es :
  NoDup files.*1 →
  match update client owner repo branch commitMessage files ref ∅ w with
  | (Next (res, _), _, t) | (Return (res, _), _, t) =>
      CreateTree o r base es ∈ t →
      ∀ p, res !! p = Some "skipped"%string → p ∉ entry_paths es
  | (Panic, _, _) => True
  end.
Proof.
  intros Hnd. unfold update. rewrite bind_call.
  destruct (Repositories_GetCommit client owner repo
              (GitObject_GetSHA (Reference_Object ref)) w)
    as [[[baseCommit resp] err] w1]; cbn [fst snd].
  destruct err as [err|].
  - destruct resp as [resp|]; unfold bind, call, return_, panic;
      repeat case_match; simplify_eq; try done; cbn [app];
      rewrite ?elem_of_cons, ?elem_of_nil;
      intros H; destruct_or?; simplify_eq; done.
  - destruct (baseCommit ≫= RepositoryCommit_Commit) as [commit|].
    + unfold bind at 1.
      destruct (update_range_spec client owner repo branch files ∅ [] w1)
        as (result' & new & w2 & t2 & Heq & Ht & _ & Hout & _).
      rewrite Heq.
      pose proof (update_range_skipped client owner repo branch files Hnd
                    _ _ _ _ _ _ _ Heq) as Hskip.
      pose proof (commit_update_result client owner repo branch commitMessage
                    ref (GitObject_GetSHA (Reference_Object ref))
                    (Tree_GetSHA (Commit_Tree commit)) result' ([] ++ new)
                    w2) as Hres.
      pose proof (commit_update_tree_call owner repo branch commitMessage
                    ref (GitObject_GetSHA (Reference_Object ref))
                    (Tree_GetSHA (Commit_Tree commit)) result' ([] ++ new)
                    w2 o r base es) as Hc.
      destruct (commit_update _ _ _ _ _ _ _ _ _ _ _) as [[f w3] t3].
      specialize (Hres _ _ _ eq_refl).
      assert (CreateTree o r base es ∈
                GetCommit owner repo (GitObject_GetSHA (Reference_Object ref))
                :: t2 ++ t3 →
              ∀ p, result' !! p = Some "skipped"%string →
                   p ∉ entry_paths es) as Hall.
      { rewrite elem_of_cons, elem_of_app.
        intros [H|[H|H]]; [discriminate| |].
        - by apply loop_call_not_tree in H.
        - rewrite (Hc H). cbn [app]. intros p Hp.
          destruct (decide (p ∈ files.*1)) as [Hin|Hin]; [by apply Hskip|].
          by rewrite (Hout _ Hin), lookup_empty in Hp. }
      destruct f as [[res e]|[res e]|]; [| |done];
        destruct Hres as [-> _]; exact Hall.
    + unfold return_. rewrite elem_of_cons, elem_of_nil.
      intros H; destruct_or?; simplify_eq; done.
Qed.

Lemma bootstrap_skipped_not_in_tree owner repo branch files w o r base es :
  match bootstrap client owner repo branch files ∅ w with
  | (Next (res, _), _, t) | (Return (res, _), _, t) =>
      CreateTree o r base es ∈ t →
      ∀ p, res !! p ≠ Some "skipped"%string
  | (Panic, _, _) => True
  end.
Proof.
  unfold bootstrap. rewrite bind_emit. unfold bind at 1.
  pose proof (bootstrap_range_spec client owner repo files ∅ [] w) as Hs.
  destruct (bootstrap_range client owner repo files ∅ [] w)
    as [[[[res es']|[res err']|] w2] t2]; [| |done].
  - destruct Hs as (_ & _ & Hin & Hout).
    assert (∀ p, res !! p ≠ Some "skipped"%string) as Hno.
    { intros p. destruct (decide (p ∈ files.*1)) as [Hp|Hp].
      - by rewrite (Hin _ Hp).
      - by rewrite (Hout _ Hp), lookup_empty. }
    unfold bind, call, emit, return_.
    repeat case_match; simplify_eq; intros _; exact Hno.
  - destruct Hs as (Ht & _).
    rewrite elem_of_cons. intros [?|Hin]; [discriminate|].
    by apply loop_call_not_tree in Hin.
Qed.

End TreeCall.

(** X11. A path the returned map reports skipped has no entry in any tree
    the run sent: unchanged files are never written again. *)
Theorem upsert_skipped_not_in_tree
    {W} (client : Client W) (owner repo branch commitMessage : string)
    (files : gmap string string) (order : list (string * string)) (w w' : W)
    (result : gmap string string) (err : option error) (t : list Event)
    (o r base : string) (es : list TreeEntry) (path : string) :
  ranges_over files order →
  upsertMultipleFilesSafe client owner repo branch order commitMessage w
    = (Returned (result, err), w', t) →
  CreateTree o r base es ∈ t →
  result !! path = Some "skipped"%string →
  path ∉ entry_paths es.
Proof.
  intros Hfiles Hrun Htree Hskip.
  apply ranges_over_NoDup in Hfiles.
  unfold upsertMultipleFilesSafe in Hrun. apply run_returned in Hrun.
  revert Hrun Htree.
  unfold upsertMultipleFilesSafe_body. rewrite bind_call.
  destruct (Git_GetRef client owner repo ("refs/heads/" +:+ branch) w)
    as [[ref|e] w1]; cbn [fst snd].
  - pose proof (update_skipped_not_in_tree client owner repo branch
                  commitMessage order ref w1 o r base es Hfiles) as Hu.
    destruct (update _ _ _ _ _ _ _ _ _) as [[f w2] t2].
    intros [H|H]; injection H as -> _ <-;
      rewrite elem_of_cons; (intros [?|Hin]; [discriminate|]);
      by apply Hu.
  - destruct (branch_missing e).
    + pose proof (bootstrap_skipped_not_in_tree client owner repo branch
                    order w1 o r base es) as Hb.
      destruct (bootstrap _ _ _ _ _ _ _) as [[f w2] t2].
      intros [H|H]; injection H as -> _ <-;
        rewrite elem_of_cons; (intros [?|Hin]; [discriminate|]);
        by destruct (Hb Hin path).
    + unfold return_. intros [H|H]; [discriminate|].
      injection H as <- <- <- <-. by rewrite lookup_empty in Hskip.
Qed.

Lemma upsert_skipped_not_in_tree_witness :
  "a"%string ∉
    entry_paths [{| TreeEntry_SHA := Some "blob0"%string;
                    TreeEntry_Path := Some "b"%string;
                    TreeEntry_Mode := Some "100644"%string;
                    TreeEntry_Type := Some "blob"%string |}].
Proof.
  eapply (upsert_skipped_not_in_tree Fake.client "o" "r" "main" "msg"
            {[ "a" := "1"; "b" := "2" ]}%string
            [("a", "1"); ("b", "2")]%string
            (Fake.branch_with {[ "a" := "1" ]}%string)
            _ _ _ _ "o" "r" "t0").
  - unfold ranges_over. vm_compute. reflexivity.
  - vm_compute. reflexivity.
  - do 6 apply list_elem_of_further. apply list_elem_of_here.
  - vm_compute. reflexivity.
Defined.

(** X12. On the bootstrap path every return other than the blob abort
    reports every path of the FileSet created, whatever the order of
    the loop, also when the tree, the commit or the ref was refused and
    nothing reached the branch. *)
Theorem bootstrap_reports_all_created
    {W} (client : Client W) (owner repo branch commitMessage : string)
    (files : gmap string string) (order : list (string * string))
    (w w1 w' : W) (e : error)
    (result : gmap string string) (err : option error) (t : list Event) :
  ranges_over files order →
  Git_GetRef client owner repo ("refs/heads/" +:+ branch) w = (inr e, w1) →
  branch_missing e = true →
  upsertMultipleFilesSafe client owner repo branch order commitMessage w
    = (Returned (result, err), w', t) →
  aborted_early err = false →
  result = (λ _, "created"%string) <$> files.
Proof.
  intros Hfiles Hget Hmiss Hrun Hlate.
  unfold upsertMultipleFilesSafe in Hrun. apply run_returned in Hrun.
  revert Hrun. unfold upsertMultipleFilesSafe_body.
  rewrite bind_call, Hget; cbn [fst snd]. rewrite Hmiss.
  pose proof (bootstrap_result client owner repo branch order w1) as Hb.
  destruct (bootstrap _ _ _ _ _ _ _) as [[f w2] t2].
  specialize (Hb _ _ _ eq_refl). intros Hrun.
  assert ((∀ p, p ∈ order.*1 → result !! p = Some "created"%string)
          ∧ (∀ p, p ∉ order.*1 → result !! p = None)) as [Hin Hout]
    by (destruct Hrun as [H|H]; injection H as -> _ _; exact (Hb Hlate)).
  apply map_eq. intros p. rewrite lookup_fmap.
  destruct (files !! p) as [c|] eqn:Hp; cbn.
  - apply Hin. apply (ranges_over_keys files order p Hfiles).
    apply elem_of_dom. eauto.
  - apply Hout. intros Hk.
    apply (ranges_over_keys files order p Hfiles), elem_of_dom in Hk.
    rewrite Hp in Hk. by destruct Hk.
Qed.

Lemma bootstrap_reports_all_created_witness :
  ({[ "a" := "created" ]} : gmap string string)%string
  = (λ _, "created"%string) <$> ({[ "a" := "1" ]} : gmap string string)%string.
Proof.
  eapply (bootstrap_reports_all_created Fake.client "o" "r" "main" "msg"
            {[ "a" := "1" ]}%string [("a", "1")]%string
            (Fake.with_quota 1 Fake.unborn)).
  - unfold ranges_over. vm_compute. reflexivity.
  - vm_compute. reflexivity.
  - reflexivity.
  - vm_compute. reflexivity.
  - reflexivity.
Defined.

(** X13. On the update path, when the loop has produced no tree entry, the
    run ends there: it returns the loop's map with a nil error and makes
    no call after the loop, so nothing is committed. *)
Theorem update_without_entries_is_noop
    {W} (client : Client W) (owner repo branch commitMessage : string)
    (files : list (string * string)) (w w1 w2 w3 : W)
    (ref : Reference) (baseCommit : RepositoryCommit)
    (resp : option Response) (commit : Commit)
    (result : gmap string string) (t3 : list Event) :
  Git_GetRef client owner repo ("refs/heads/" +:+ branch) w = (inl ref, w1) →
  Repositories_GetCommit client owner repo
    (GitObject_GetSHA (Reference_Object ref)) w1
    = ((Some baseCommit, resp, None), w2) →
  RepositoryCommit_Commit baseCommit = Some commit →
  update_range client owner repo branch files ∅ [] w2
    = (Next (result, []), w3, t3) →
  upsertMultipleFilesSafe client owner repo branch files commitMessage w
  = (Returned (result, None), w3,
     GetRef owner repo ("refs/heads/" +:+ branch)
     :: GetCommit owner repo (GitObject_GetSHA (Reference_Object ref))
     :: t3 ++ [FmtPrintln "No changes to commit."])
  ∧ history t3 = [].
Proof.
  intros Hget Hcommit Hsome Hloop. split.
  - unfold upsertMultipleFilesSafe, run, upsertMultipleFilesSafe_body.
    rewrite bind_call, Hget; cbn [fst snd].
    unfold update. rewrite bind_call, Hcommit; cbn [fst snd mbind option_bind].
    rewrite Hsome. unfold bind at 1. rewrite Hloop. reflexivity.
  - destruct (update_range_spec client owner repo branch files ∅ [] w2)
      as (r & new & w' & t & Heq & Ht & _).
    rewrite Hloop in Heq. injection Heq as _ _ _ ->.
    by apply history_loop.
Qed.

Lemma update_without_entries_is_noop_witness :
  upsertMultipleFilesSafe Fake.client "o" "r" "main"
    [("a", "1")]%string "msg" (Fake.branch_with {[ "a" := "1" ]}%string)
  = (Returned ({[ "a" := "skipped" ]}%string, None),
     Fake.branch_with {[ "a" := "1" ]}%string,
     GetRef "o" "r" ("refs/heads/" +:+ "main")
     :: GetCommit "o" "r" "c0"
     :: [GetContents "o" "r" "a" "main"]
        ++ [FmtPrintln "No changes to commit."])
  ∧ history [GetContents "o" "r" "a" "main"] = [].
Proof.
  apply (update_without_entries_is_noop Fake.client "o" "r" "main" "msg"
           [("a", "1")]%string
           (Fake.branch_with {[ "a" := "1" ]}%string)
           (Fake.branch_with {[ "a" := "1" ]}%string)
           (Fake.branch_with {[ "a" := "1" ]}%string)
           (Fake.branch_with {[ "a" := "1" ]}%string)
           {| Reference_Ref := Some "refs/heads/main"%string;
              Reference_URL := None;
              Reference_Object :=
                Some {| GitObject_Type := Some "commit"%string;
                        GitObject_SHA := Some "c0"%string;
                        GitObject_URL := None |} |}
           {| RepositoryCommit_SHA := Some "c0"%string;
              RepositoryCommit_Commit :=
                Some {| Commit_SHA := Some "c0"%string;
                        Commit_Message := None;
                        Commit_Tree := Some (mkTree (Some "t0"%string) []);
                        Commit_Parents := [];
                        Commit_HTMLURL := None |} |}
           (Some Fake.ok)
           {| Commit_SHA := Some "c0"%string;
              Commit_Message := None;
              Commit_Tree := Some (mkTree (Some "t0"%string) []);
              Commit_Parents := [];
              Commit_HTMLURL := None |}).
  - vm_compute. reflexivity.
  - vm_compute. reflexivity.
  - reflexivity.
  - vm_compute. reflexivity.
Defined.

(** ** Reads *)

Section Reads.
Context {W : Type}.
Variable client : Client W.

Lemma commit_update_reads owner repo branch commitMessage ref
    originalHeadSHA baseTreeSHA result es w :
  reads (commit_update client owner repo branch commitMessage ref
           originalHeadSHA baseTreeSHA result es w).2 = [].
Proof.
  unfold commit_update, bind, call, emit, return_, panic.
  repeat case_match; simplify_eq; reflexivity.
Qed.

End Reads.

(** X14. On the update path, once the base commit is there, the run reads
    every file of the FileSet exactly once, in the order of the loop,
    and always by the name of the branch (not by the commit it
    resolved at the start). *)
Theorem update_reads_each_file_once
    {W} (client : Client W) (owner repo branch commitMessage : string)
    (files : list (string * string)) (w w1 w2 : W)
    (ref : Reference) (baseCommit : RepositoryCommit)
    (resp : option Response) (commit : Commit) :
  Git_GetRef client owner repo ("refs/heads/" +:+ branch) w = (inl ref, w1) →
  Repositories_GetCommit client owner repo
    (GitObject_GetSHA (Reference_Object ref)) w1
    = ((Some baseCommit, resp, None), w2) →
  RepositoryCommit_Commit baseCommit = Some commit →
  reads (upsertMultipleFilesSafe client owner repo branch files
           commitMessage w).2
  = (λ f, GetContents owner repo f.1 branch) <$> files.
Proof.
  intros Hget Hcommit Hsome.
  unfold upsertMultipleFilesSafe, run, upsertMultipleFilesSafe_body.
  rewrite bind_call, Hget; cbn [fst snd].
  unfold update. rewrite bind_call, Hcommit; cbn [fst snd mbind option_bind].
  rewrite Hsome. unfold bind at 1.
  destruct (update_range_events client (λ _, True) owner repo branch files
              (λ _ _ _, conj I I) ∅ [] w2)
    as (result & new & w3 & t & -> & _ & _ & _ & Hreads).
  pose proof (commit_update_reads client owner repo branch commitMessage ref
                (GitObject_GetSHA (Reference_Object ref))
                (Tree_GetSHA (Commit_Tree commit)) result ([] ++ new) w3)
    as Hc.
  destruct (commit_update _ _ _ _ _ _ _ _ _ _ _) as [[f w4] t4].
  cbn [snd] in Hc.
  assert (reads (GetRef owner repo ("refs/heads/" +:+ branch)
                 :: GetCommit owner repo
                      (GitObject_GetSHA (Reference_Object ref))
                 :: t ++ t4)
          = (λ f, GetContents owner repo f.1 branch) <$> files) as Hall.
  { unfold reads in *. cbn. rewrite List.filter_app, Hreads, Hc.
    apply app_nil_r. }
  destruct f; exact Hall.
Qed.

Lemma update_reads_each_file_once_witness :
  reads (upsertMultipleFilesSafe Fake.client "o" "r" "main"
           [("a", "1"); ("b", "2")]%string "msg"
           (Fake.branch_with {[ "a" := "1" ]}%string)).2
  = (λ f, GetContents "o" "r" f.1 "main") <$> [("a", "1"); ("b", "2")]%string.
Proof.
  eapply (update_reads_each_file_once Fake.client "o" "r" "main" "msg").
  - vm_compute. reflexivity.
  - vm_compute. reflexivity.
  - reflexivity.
Defined.

(** ** More on the repository ensurer *)

(** X15. [createRepo] makes one lookup and at most one creation call, and it
    makes the creation call exactly when the lookup returned an error
    together with no response at all or with a 404 response; the call
    always asks for the fixed repository under the empty organization. *)
Theorem createRepo_calls
    {W} (client : Client W) (owner repoName : string) (w : W) :
  calls (createRepo client owner repoName w).2 =
  match (Repositories_Get client owner repoName w).1 with
  | (_, None) => [ReposGet owner repoName]
  | (Some resp, Some _) =>
      if bool_decide (StatusCode resp = 404)
      then [ReposGet owner repoName;
            ReposCreate EmptyString (requestedRepository repoName)]
      else [ReposGet owner repoName]
  | (None, Some _) =>
      [ReposGet owner repoName;
       ReposCreate EmptyString (requestedRepository repoName)]
  end.
Proof.
  unfold createRepo, run, createRepo_body. rewrite bind_call.
  destruct (Repositories_Get client owner repoName w)
    as [[[resp|] [err|]] w1]; cbn [fst snd]; try reflexivity.
  - destruct (bool_decide (StatusCode resp = 404)); cbn [negb];
      [|reflexivity].
    rewrite bind_call. fold (requestedRepository repoName).
    destruct (Repositories_Create client EmptyString
                (requestedRepository repoName) w1) as [[created|e] w2];
      reflexivity.
  - rewrite bind_call. fold (requestedRepository repoName).
    destruct (Repositories_Create client EmptyString
                (requestedRepository repoName) w1) as [[created|e] w2];
      reflexivity.
Qed.

(** The creation branch of [createRepo]. *)
Lemma createRepo_attempt
    {W} (client : Client W) (owner repoName : string) (w w1 : W)
    (resp : option Response) (err : error) :
  Repositories_Get client owner repoName w = ((resp, Some err), w1) →
  (∀ r, resp = Some r → StatusCode r = 404) →
  createRepo client owner repoName w =
    match Repositories_Create client EmptyString
            (requestedRepository repoName) w1 with
    | (inl createdRepo, w2) =>
        (Returned None, w2,
         [ReposGet owner repoName;
          ReposCreate EmptyString (requestedRepository repoName);
          LogPrintln ("Repo created: " +:+ Repository_GetHTMLURL createdRepo)])
    | (inr e, w2) =>
        (Returned (Some (wrapError "Error creating repo: " e EmptyString)), w2,
         [ReposGet owner repoName;
          ReposCreate EmptyString (requestedRepository repoName)])
    end.
Proof.
  intros Hget H404.
  unfold createRepo, run, createRepo_body.
  rewrite bind_call, Hget; cbn [fst snd].
  assert (match resp with
          | Some r => negb (bool_decide (StatusCode r = 404))
          | None => false
          end = false) as ->.
  { destruct resp as [r|]; [|done].
    by rewrite (H404 r eq_refl), bool_decide_eq_true_2. }
  rewrite bind_call. fold (requestedRepository repoName).
  destruct (Repositories_Create client EmptyString
              (requestedRepository repoName) w1) as [[createdRepo|e] w2];
    reflexivity.
Qed.

(** X16. [createRepo] always returns, and it returns a nil error in two
    cases only: the lookup returned no error, or the creation call was
    made and succeeded. *)
Theorem createRepo_nil_means_found_or_created
    {W} (client : Client W) (owner repoName : string) (w : W) :
  ∃ e, (createRepo client owner repoName w).1.1 = Returned e
    ∧ (e = None ↔
       (Repositories_Get client owner repoName w).1.2 = None
       ∨ (ReposCreate EmptyString (requestedRepository repoName)
            ∈ (createRepo client owner repoName w).2
          ∧ ∃ created,
              (Repositories_Create client EmptyString
                 (requestedRepository repoName)
                 (Repositories_Get client owner repoName w).2).1
              = inl created)).
Proof.
  destruct (Repositories_Get client owner repoName w)
    as [[resp [err|]] w1] eqn:Hget; cbn [fst snd].
  - assert ((∀ r, resp = Some r → StatusCode r = 404)
            ∨ ∃ r, resp = Some r ∧ StatusCode r ≠ 404) as [H404|Hno].
    { destruct resp as [r|]; [|left; discriminate].
      destruct (decide (StatusCode r = 404)) as [H|H].
      - left. by intros ? [= <-].
      - right. eauto. }
    + rewrite (createRepo_attempt client owner repoName w w1 resp err Hget H404).
      destruct (Repositories_Create client EmptyString
                  (requestedRepository repoName) w1) as [[created|e] w2];
        cbn [fst snd]; eexists; (split; [reflexivity|]); split.
      * intros _. right. split; [|by eauto].
        apply list_elem_of_further, list_elem_of_here.
      * done.
      * discriminate.
      * intros [?|[_ [? ?]]]; discriminate.
    + destruct Hno as (r & -> & Hne).
      rewrite (createRepo_lookup_failed client owner repoName w r err w1
                 Hget Hne). cbn [fst snd].
      eexists. split; [reflexivity|]. split; [discriminate|].
      intros [?|[Hin _]]; [discriminate|].
      apply list_elem_of_singleton in Hin. discriminate.
  - rewrite (createRepo_found client owner repoName w resp w1 Hget).
    exists None. split; [reflexivity|]. split; [intros _; by left | done].
Qed.

(** ** [createInitialMainBranch] and the bootstrap path *)

Section Initial.
Context {W : Type}.
Variable client : Client W.

(** The two bootstrap loops move in step: same calls, same world, same
    entries, and one ends the function exactly when the other does. *)
Lemma createInitialMainBranch_range_bootstrap owner repo files :
  ∀ result es w,
  match bootstrap_range client owner repo files result es w,
        createInitialMainBranch_range client owner repo files es w with
  | (Next (_, es1), w1, t1), (Next es2, w2, t2) =>
      es1 = es2 ∧ w1 = w2 ∧ t1 = t2
  | (Return (_, Some _), w1, t1), (Return (Some _), w2, t2) =>
      w1 = w2 ∧ t1 = t2
  | _, _ => False
  end.
Proof.
  induction files as [|[path content] rest IH]; intros result es w.
  - cbn. done.
  - cbn [bootstrap_range createInitialMainBranch_range]. rewrite !bind_call.
    destruct (Git_CreateBlob client owner repo (newBlob content) w)
      as [[blob|e] w1]; cbn [fst snd]; [|done].
    specialize (IH (<[path := "created"%string]> result)
                  (es ++ [newTreeEntry path blob]) w1).
    destruct (bootstrap_range client owner repo rest
                (<[path := "created"%string]> result)
                (es ++ [newTreeEntry path blob]) w1)
      as [[[[r es1]|[r [e1|]]|] w2] t2];
      destruct (createInitialMainBranch_range client owner repo rest
                  (es ++ [newTreeEntry path blob]) w1)
        as [[[es2|[e2|]|] w3] t3]; try done.
    + destruct IH as (-> & -> & ->). done.
    + destruct IH as (-> & ->). done.
Qed.

Lemma createInitialMainBranch_bootstrap owner repo files w :
  match bootstrap client owner repo "main" files ∅ w,
        createInitialMainBranch client owner repo files w with
  | (Return (_, err), w1, t1), (Returned err', w2, t2) =>
      w1 = w2 ∧ calls t1 = calls t2 ∧ (err = None ↔ err' = None)
  | _, _ => False
  end.
Proof.
  unfold createInitialMainBranch, run, createInitialMainBranch_body, bootstrap.
  unfold bind, call, emit, return_.
  pose proof (createInitialMainBranch_range_bootstrap owner repo files ∅ [] w)
    as Hloop.
  destruct (bootstrap_range client owner repo files ∅ [] w)
    as [[[[r es1]|[r [e1|]]|] w1] t1];
    destruct (createInitialMainBranch_range client owner repo files [] w)
      as [[[es2|[e2|]|] w2] t2]; try done.
  - destruct Hloop as (-> & -> & ->).
    destruct (Git_CreateTree client owner repo EmptyString es2 w2)
      as [[tree|e] w3].
    2:{ unfold calls. cbn. repeat split; done. }
    destruct (Git_CreateCommit client owner repo _ w3) as [[newCommit|e] w4].
    2:{ unfold calls. cbn. repeat split; done. }
    destruct (Git_CreateRef client owner repo _ w4) as [[e|] w5];
      unfold calls; cbn; rewrite !List.filter_app; repeat split; done.
  - destruct Hloop as (-> & ->). unfold calls. cbn. repeat split; done.
Qed.

End Initial.

(** X17. On branch main, the bootstrap path of [upsertMultipleFilesSafe] is
    [createInitialMainBranch] after the failed ref lookup: from the
    world that lookup left, both make the same calls in the same order
    and leave the same world, and one returns a nil error exactly when
    the other does. *)
Theorem bootstrap_is_createInitialMainBranch
    {W} (client : Client W) (owner repo commitMessage : string)
    (files : list (string * string)) (w w1 : W) (e : error) :
  Git_GetRef client owner repo "refs/heads/main" w = (inr e, w1) →
  branch_missing e = true →
  ∃ result err err' w2 t t',
    upsertMultipleFilesSafe client owner repo "main" files commitMessage w
      = (Returned (result, err), w2, t)
    ∧ createInitialMainBranch client owner repo files w1
      = (Returned err', w2, t')
    ∧ calls t = GetRef owner repo "refs/heads/main" :: calls t'
    ∧ (err = None ↔ err' = None).
Proof.
  intros Hget Hmiss.
  unfold upsertMultipleFilesSafe, run, upsertMultipleFilesSafe_body.
  rewrite bind_call.
  change ("refs/heads/" +:+ "main") with "refs/heads/main"%string.
  rewrite Hget; cbn [fst snd]. rewrite Hmiss.
  pose proof (createInitialMainBranch_bootstrap client owner repo files w1)
    as Hb.
  destruct (bootstrap client owner repo "main" files ∅ w1)
    as [[[[r err]|[r err]|] w2] t];
    destruct (createInitialMainBranch client owner repo files w1)
      as [[[err'|] w2'] t']; try done.
  destruct Hb as (-> & Hcalls & Hnil).
  exists r, err, err', w2', (GetRef owner repo "refs/heads/main" :: t), t'.
  repeat split; [|apply Hnil..].
  unfold calls in *. cbn. by rewrite Hcalls.
Qed.

Lemma bootstrap_is_createInitialMainBranch_witness :
  ∃ result err err' w2 t t',
    upsertMultipleFilesSafe Fake.client "o" "r" "main"
      [("a", "1")]%string "msg" Fake.unborn
      = (Returned (result, err), w2, t)
    ∧ createInitialMainBranch Fake.client "o" "r" [("a", "1")]%string
        Fake.unborn
      = (Returned err', w2, t')
    ∧ calls t = GetRef "o" "r" "refs/heads/main" :: calls t'
    ∧ (err = None ↔ err' = None).
Proof.
  eapply (bootstrap_is_createInitialMainBranch Fake.client "o" "r" "msg").
  - vm_compute. reflexivity.
  - reflexivity.
Defined.

Section InitialSuccess.
Context {W : Type}.
Variable client : Client W.

(** When the loop of [createInitialMainBranch] falls through it has
    uploaded one blob per file, in order, and holds one entry per
    file. *)
Lemma createInitialMainBranch_range_next owner repo files :
  ∀ es w es' w' t,
  createInitialMainBranch_range client owner repo files es w
    = (Next es', w', t) →
  t = (λ f, CreateBlob owner repo (newBlob f.2)) <$> files
  ∧ ∃ new, es' = es ++ new ∧ entry_paths new = files.*1.
Proof.
  induction files as [|[path content] rest IH]; intros es w es' w' t.
  - cbn. intros [= <- <- <-]. split; [done|]. exists []. by rewrite app_nil_r.
  - cbn [createInitialMainBranch_range]. rewrite bind_call.
    destruct (Git_CreateBlob client owner repo (newBlob content) w)
      as [[blob|e] w1]; cbn [fst snd]; [|discriminate].
    destruct (createInitialMainBranch_range client owner repo rest
                (es ++ [newTreeEntry path blob]) w1)
      as [[f w2] t2] eqn:Hrest.
    intros [= -> -> <-].
    destruct (IH _ _ _ _ _ Hrest) as (-> & new & -> & Hpaths).
    split; [reflexivity|].
    exists (newTreeEntry path blob :: new). rewrite <- app_assoc.
    split; [reflexivity|]. unfold entry_paths in *. cbn. by rewrite Hpaths.
Qed.

Lemma createInitialMainBranch_range_return owner repo files :
  ∀ es w w' t,
  createInitialMainBranch_range client owner repo files es w
    ≠ (Return None, w', t).
Proof.
  induction files as [|[path content] rest IH]; intros es w w' t.
  - discriminate.
  - cbn [createInitialMainBranch_range]. rewrite bind_call.
    destruct (Git_CreateBlob client owner repo (newBlob content) w)
      as [[blob|e] w1]; cbn [fst snd]; [|discriminate].
    destruct (createInitialMainBranch_range client owner repo rest
                (es ++ [newTreeEntry path blob]) w1)
      as [[f w2] t2] eqn:Hrest.
    intros [= -> -> <-]. by eapply IH.
Qed.

End InitialSuccess.

(** X18. A nil error from [createInitialMainBranch] means the whole sequence
    went out: one blob per file in the order of the loop, then a tree
    from scratch with one entry per file, then the parentless commit
    "Initial commit", then the creation of refs/heads/main. *)
Theorem createInitialMainBranch_success
    {W} (client : Client W) (owner repo : string)
    (files : list (string * string)) (w w' : W) (t : list Event) :
  createInitialMainBranch client owner repo files w = (Returned None, w', t) →
  ∃ entries commit ref,
    calls t
    = ((λ f, CreateBlob owner repo (newBlob f.2)) <$> files)
      ++ [CreateTree owner repo EmptyString entries;
          CreateCommit owner repo commit;
          CreateRef owner repo ref]
    ∧ entry_paths entries = files.*1
    ∧ Commit_Message commit = Some "Initial commit"%string
    ∧ Commit_Parents commit = []
    ∧ Reference_Ref ref = Some "refs/heads/main"%string.
Proof.
  unfold createInitialMainBranch, run, createInitialMainBranch_body.
  unfold bind at 1.
  destruct (createInitialMainBranch_range client owner repo files [] w)
    as [[[es|[e|]|] w1] t1] eqn:Hloop; try discriminate.
  2:{ by apply createInitialMainBranch_range_return in Hloop. }
  destruct (createInitialMainBranch_range_next client owner repo files
              _ _ _ _ _ Hloop) as (-> & new & -> & Hpaths).
  cbn [app]. unfold bind, call, emit, return_.
  repeat case_match; simplify_eq; intros [= <- <-].
  do 3 eexists. split.
  - unfold calls. rewrite List.filter_app. cbn.
    rewrite List.forallb_filter_id; [reflexivity|].
    apply List.forallb_forall.
    intros e He. apply List.in_map_iff in He as (f & <- & _). reflexivity.
  - repeat split; [exact Hpaths | reflexivity..].
Qed.

Lemma createInitialMainBranch_success_witness :
  ∃ entries commit ref,
    calls (createInitialMainBranch Fake.client "o" "r"
             [("a", "1"); ("b", "2")]%string Fake.unborn).2
    = ((λ f, CreateBlob "o" "r" (newBlob f.2))
         <$> [("a", "1"); ("b", "2")]%string)
      ++ [CreateTree "o" "r" EmptyString entries;
          CreateCommit "o" "r" commit;
          CreateRef "o" "r" ref]
    ∧ entry_paths entries = [("a", "1"); ("b", "2")]%string.*1
    ∧ Commit_Message commit = Some "Initial commit"%string
    ∧ Commit_Parents commit = []
    ∧ Reference_Ref ref = Some "refs/heads/main"%string.
Proof.
  eapply (createInitialMainBranch_success Fake.client "o" "r"
            [("a", "1"); ("b", "2")]%string Fake.unborn).
  vm_compute. reflexivity.
Defined.

(** ** [main] *)

Section Main.
Context {W : Type}.

Lemma main_summary_lines (entries : list (string * string)) (w : W) :
  main_summary entries w
  = (Next tt, w,
     (λ f, FmtPrintln ("  " +:+ f.1 +:+ " → " +:+ f.2)) <$> entries).
Proof.
  induction entries as [|[file status] rest IH]; [reflexivity|].
  cbn [main_summary]. rewrite bind_emit, IH. reflexivity.
Qed.

End Main.

(** X19. Without a token, or without a readable main.go, [main] ends in
    [log.Fatal] before it has made any call to the remote. *)
Theorem main_needs_token_and_source
    {W} (proc : Process W)
    (rangeFiles rangeResult : gmap string string → list (string * string))
    (w : W) :
  os_Getenv proc "GITHUB_TOKEN" w = EmptyString
  ∨ (∃ err, (os_ReadFile_checked proc "main.go" w).1 = inr err) →
  ∃ message cause w' t,
    main proc rangeFiles rangeResult w = (Returned (Fatal message cause), w', t)
    ∧ Forall (λ e, is_remote e = false) t.
Proof.
  intros Hcase. unfold main, run, main_body, bind at 1, peek.
  destruct (bool_decide (os_Getenv proc "GITHUB_TOKEN" w = EmptyString))
    eqn:Htoken.
  - do 4 eexists. split; [reflexivity | constructor].
  - destruct Hcase as [Hempty|[err Hread]].
    { apply bool_decide_eq_false in Htoken. done. }
    unfold bind at 1. cbn [main_read]. rewrite bind_call.
    destruct (os_ReadFile_checked proc "main.go" w) as [c w1].
    cbn [fst] in Hread. subst c. cbn.
    do 4 eexists. split; [reflexivity | repeat constructor].
Qed.

Lemma main_needs_token_and_source_witness :
  ∃ message cause w' t,
    main (fakeProcess "" (Some "package main")) map_to_list map_to_list
      Fake.nothing
    = (Returned (Fatal message cause), w', t)
    ∧ Forall (λ e, is_remote e = false) t.
Proof.
  apply (main_needs_token_and_source (fakeProcess "" (Some "package main"))).
  left. reflexivity.
Defined.

(** X20. When [createRepo] returns an error, [main] ends in [log.Fatal] with
    that error and never calls [upsertMultipleFilesSafe]: after reading
    main.go its calls are those of [createRepo] and nothing else. *)
Theorem main_stops_when_createRepo_fails
    {W} (proc : Process W)
    (rangeFiles rangeResult : gmap string string → list (string * string))
    (w w1 w2 : W) (content : string) (err : error) (t2 : list Event) :
  os_Getenv proc "GITHUB_TOKEN" w ≠ EmptyString →
  os_ReadFile_checked proc "main.go" w = (inl content, w1) →
  createRepo (github_NewClient proc (os_Getenv proc "GITHUB_TOKEN" w))
    "Santosh-etailify" "gitapis10" w1
    = (Returned (Some err), w2, t2) →
  main proc rangeFiles rangeResult w
  = (Returned (Fatal "Failed to create repo: " (Some err)), w2,
     ReadFile "main.go" :: t2).
Proof.
  intros Htoken Hread Hrepo.
  unfold main, run, main_body, bind at 1, peek.
  rewrite bool_decide_eq_false_2 by done.
  unfold bind at 1. cbn [main_read]. rewrite bind_call, Hread. cbn [fst snd].
  unfold ret, bind at 1, invoke. rewrite Hrepo. cbn.
  by rewrite app_nil_r.
Qed.

Lemma main_stops_when_createRepo_fails_witness :
  main (fakeProcess "token" (Some "package main")) map_to_list map_to_list
    (Fake.with_quota 0 (Fake.with_outage 1 Fake.unborn))
  = (Returned (Fatal "Failed to create repo: "
       (Some (wrapError "Error creating repo: " (ErrorResponse 422)
                EmptyString))),
     Fake.with_quota 0 Fake.unborn,
     ReadFile "main.go"
     :: [ReposGet "Santosh-etailify" "gitapis10";
         ReposCreate EmptyString (requestedRepository "gitapis10")]).
Proof.
  apply (main_stops_when_createRepo_fails
           (fakeProcess "token" (Some "package main")) map_to_list map_to_list
           _ (Fake.with_quota 0 (Fake.with_outage 1 Fake.unborn))
           _ "package main").
  - discriminate.
  - reflexivity.
  - vm_compute. reflexivity.
Defined.

(** X21. When [main] runs to its end, the last things it prints are the
    header "File Update Summary:" and exactly one line, for main.go,
    with one of the four statuses. *)
Theorem main_prints_one_summary_line
    {W} (proc : Process W)
    (rangeFiles rangeResult : gmap string string → list (string * string))
    (w w' : W) (t : list Event) :
  (∀ m, ranges_over m (rangeFiles m)) →
  (∀ m, ranges_over m (rangeResult m)) →
  main proc rangeFiles rangeResult w = (Returned Done, w', t) →
  ∃ t0 status,
    status ∈ statuses
    ∧ t = t0 ++ [FmtPrintln "File Update Summary:";
                 FmtPrintln ("  main.go → " +:+ status)].
Proof.
  intros HrF HrR. unfold main, run, main_body, bind at 1, peek.
  destruct (bool_decide (os_Getenv proc "GITHUB_TOKEN" w = EmptyString));
    [discriminate|].
  unfold bind at 1. cbn [main_read]. rewrite bind_call.
  destruct (os_ReadFile_checked proc "main.go" w) as [[content|e] w1];
    cbn [fst snd]; [|discriminate].
  unfold ret, bind at 1, invoke.
  destruct (createRepo _ _ _ w1) as [[[[e|]|] w2] t2]; try discriminate.
  unfold bind at 1.
  destruct (upsertMultipleFilesSafe _ _ _ _ _ _ w2)
    as [[[[result [e|]]|] w3] t3] eqn:Hup; try discriminate.
  rewrite bind_emit. unfold bind at 1. rewrite main_summary_lines.
  intros [= <- <-].
  destruct (upsert_result _ _ _ _ _ _ _ _ _ _ _ Hup eq_refl) as [Hin Hout].
  specialize (HrF (<["main.go"%string := content]> ∅)).
  assert ((rangeFiles (<["main.go"%string := content]> ∅)).*1
          = ["main.go"%string]) as Hkeys.
  { assert (map_to_list (<["main.go"%string := content]>
                           (∅ : gmap string string))
            = [("main.go"%string, content)]) as Hlist
      by (rewrite insert_empty; apply map_to_list_singleton).
    unfold ranges_over in HrF. rewrite Hlist in HrF.
    apply Permutation_singleton_r in HrF. by rewrite HrF. }
  rewrite Hkeys in Hin, Hout.
  destruct (Hin "main.go"%string) as (status & Hs & Hst); [left|].
  assert (result = {[ "main.go"%string := status ]}) as ->.
  { apply map_eq. intros p. destruct (decide (p = "main.go"%string)) as [->|Hne].
    - by rewrite lookup_singleton_eq.
    - rewrite lookup_singleton_ne by done. apply Hout.
      by intros ->%list_elem_of_singleton. }
  specialize (HrR {[ "main.go"%string := status ]}).
  unfold ranges_over in HrR. rewrite map_to_list_singleton in HrR.
  apply Permutation_singleton_r in HrR. rewrite HrR.
  exists (ReadFile "main.go" :: t2 ++ t3), status. split; [done|].
  cbn. rewrite <- app_assoc. reflexivity.
Qed.

Lemma main_prints_one_summary_line_witness :
  ∃ t0 status,
    status ∈ statuses
    ∧ (main (fakeProcess "token" (Some "package main"))
         map_to_list map_to_list (Fake.branch_with ∅)).2
      = t0 ++ [FmtPrintln "File Update Summary:";
               FmtPrintln ("  main.go → " +:+ status)].
Proof.
  eapply (main_prints_one_summary_line
            (fakeProcess "token" (Some "package main"))
            map_to_list map_to_list (Fake.branch_with ∅)).
  - intros m. unfold ranges_over. reflexivity.
  - intros m. unfold ranges_over. reflexivity.
  - vm_compute. reflexivity.
Defined.
